(** * unity-version-selector: the version registry and resolution engine

    A shallow embedding of [main.go].  The program is a one-shot Windows
    command-line tool (it imports [golang.org/x/sys/windows/registry]), so
    [filepath.Separator] is the backslash.  Go strings are byte strings and
    are modelled by [string]; Go maps by [gmap]; everything the program
    reads from or writes to the outside (directory trees, files, the
    persisted configuration, the standard streams, the started process) is
    a field of an explicit [World] threaded through a small monad in which
    [log.Fatal] ends the run.

    The file system does not change during a run: what [os.Lstat] answers
    for a path is a tree, and a walk below that path reads this tree.  The
    calls into the Go libraries are modelled by functions named after
    them; the regular expression compiler and the TOML codec, whose
    behaviour on arbitrary patterns and documents the program does not fix,
    are parameters of the engine. *)

From Stdlib Require Import Ascii String.
From stdpp Require Import base strings gmap list sorting.

(** ** Constants of the program *)

Definition vendorName : string := "hasht".
Definition applicationName : string := "unity-version-selector".
Definition configFile : string := "config.toml".
Definition depthCutoff : nat := 6.
Definition versionPattern : string := "m_EditorVersion: (.+)".

(** [filepath.Separator] on Windows, and the forward slash of package
    [path]. *)
Definition Separator : ascii := "\"%char.
Definition Slash : ascii := "/"%char.
Definition LF : ascii := "010"%char.
Definition CR : ascii := "013"%char.

(** ** Byte-string helpers standing for the Go library calls *)

(** [strings.Count(s, sep)] for a separator of one byte. *)
Fixpoint strings_Count (s : string) (sep : ascii) : nat :=
  match s with
  | "" => 0
  | String c s' => (if Ascii.eqb c sep then 1 else 0) + strings_Count s' sep
  end.

(** [strings.HasPrefix(s, prefix)]. *)
Definition strings_HasPrefix (s pre : string) : bool := String.prefix pre s.

(** [filepath.FromSlash] on Windows. *)
Fixpoint FromSlash (s : string) : string :=
  match s with
  | "" => ""
  | String c s' => String (if Ascii.eqb c Slash then Separator else c) (FromSlash s')
  end.

(** [path.Clean]: components between slashes, dropping empty and ["."]
    components and resolving [".."] against the component before it. *)
Fixpoint split_on (c : ascii) (s : string) : list string :=
  match s with
  | "" => [""]
  | String a s' =>
      match split_on c s' with
      | h :: t => if Ascii.eqb a c then "" :: h :: t else String a h :: t
      | [] => [String a ""]
      end
  end.

Fixpoint clean_components (rooted : bool) (stack : list string) (cs : list string)
  : list string :=
  match cs with
  | [] => rev stack
  | c :: cs' =>
      if decide (c = "" ∨ c = ".") then clean_components rooted stack cs'
      else if decide (c = "..") then
        match stack with
        | top :: below =>
            if decide (top = "..") then clean_components rooted (c :: stack) cs'
            else clean_components rooted below cs'
        | [] =>
            if rooted then clean_components rooted stack cs'
            else clean_components rooted [c] cs'
        end
      else clean_components rooted (c :: stack) cs'
  end.

Definition path_Clean (p : string) : string :=
  let rooted := String.prefix "/" p in
  let body := String.concat "/" (clean_components rooted [] (split_on Slash p)) in
  let out := (if rooted then "/" else "") +:+ body in
  if decide (out = "") then "." else out.

(** [path.Join(a, b)]: empty elements are ignored, the rest is joined by
    slashes and cleaned. *)
Definition path_Join (a b : string) : string :=
  match filter (λ e, e ≠ "") [a; b] with
  | [] => ""
  | es => path_Clean (String.concat "/" es)
  end.

(** ** Package filepath on Windows

    [filepath.Clean] and [filepath.Join] as the current library has them
    for Windows (Go 1.22): both the backslash and the slash separate
    elements, a leading volume name (a drive letter with its colon, a UNC
    host and share, a device prefix) is set aside and kept, the elements of
    the rest are cleaned as in package [path], and the result is written
    with backslashes. *)
Definition IsPathSeparator (c : ascii) : bool :=
  Ascii.eqb c Separator || Ascii.eqb c Slash.

Fixpoint split_path (s : string) : list string :=
  match s with
  | "" => [""]
  | String a s' =>
      match split_path s' with
      | h :: t => if IsPathSeparator a then "" :: h :: t else String a h :: t
      | [] => [String a ""]
      end
  end.

Fixpoint skip (n : nat) (s : string) : string :=
  match n, s with
  | O, _ => s
  | S n', String _ s' => skip n' s'
  | S _, "" => ""
  end.

Definition toUpper (c : ascii) : ascii :=
  let n := nat_of_ascii c in
  if (97 <=? n) && (n <=? 122) then ascii_of_nat (n - 32) else c.

(** [pathHasPrefixFold]: [s] begins with [prefix], ignoring case and the
    direction of separators, and goes on with a separator if it goes on. *)
Fixpoint pathHasPrefixFold (s pre : string) : bool :=
  match pre, s with
  | "", "" => true
  | "", String c _ => IsPathSeparator c
  | String _ _, "" => false
  | String p pre', String c s' =>
      (if IsPathSeparator p then IsPathSeparator c
       else Ascii.eqb (toUpper p) (toUpper c)) &&
      pathHasPrefixFold s' pre'
  end.

(** [uncLen]: the index of the second separator at or after [i], or the
    length of the path; [s] is the path from index [i] on. *)
Fixpoint uncLen_from (s : string) (i count : nat) : nat :=
  match s with
  | "" => i
  | String c s' =>
      if IsPathSeparator c
      then if count =? 1 then i else uncLen_from s' (S i) (S count)
      else uncLen_from s' (S i) count
  end.

Definition uncLen (path : string) (prefixLen : nat) : nat :=
  if String.length path <? prefixLen then String.length path
  else uncLen_from (skip prefixLen path) prefixLen 0.

(** [cutPath]: what follows the first separator, if there is one. *)
Fixpoint cutPath_after (s : string) : option string :=
  match s with
  | "" => None
  | String c s' => if IsPathSeparator c then Some s' else cutPath_after s'
  end.

(** [path[i]] exists and satisfies [f]. *)
Definition byte_is (i : nat) (f : ascii → bool) (path : string) : bool :=
  match skip i path with
  | String c _ => f c
  | "" => false
  end.

Definition volumeNameLen (path : string) : nat :=
  if byte_is 1 (λ c, Ascii.eqb c ":") path then 2
  else if negb (byte_is 0 IsPathSeparator path) then 0
  else if pathHasPrefixFold path "\\.\UNC" then uncLen path 8
  else if pathHasPrefixFold path "\\." || pathHasPrefixFold path "\\?" ||
          pathHasPrefixFold path "\??"
  then if String.length path =? 3 then 3
       else match cutPath_after (skip 4 path) with
            | None => String.length path
            | Some rest => String.length path - String.length rest - 1
            end
  else if byte_is 1 IsPathSeparator path then uncLen path 2
  else 0.

(** The first element of a cleaned path holds a colon. *)
Fixpoint first_element_has_colon (out : string) : bool :=
  match out with
  | "" => false
  | String c out' =>
      if IsPathSeparator c then false
      else Ascii.eqb c ":" || first_element_has_colon out'
  end.

(** [postClean]: a cleaned path without a volume that is not the
    beginning of the path it was made from must not have become a path
    on a drive or a device path. *)
Definition postClean (volLen : nat) (rest out : string) : string :=
  if negb (volLen =? 0) || String.prefix out rest then out
  else if first_element_has_colon out then String "." (String Separator out)
  else match out with
       | String c0 out' =>
           if IsPathSeparator c0 && String.prefix "??" out'
           then String Separator (String "." out) else out
       | "" => out
       end.

Definition filepath_Clean (path : string) : string :=
  let volLen := volumeNameLen path in
  match skip volLen path with
  | "" =>
      if (1 <? volLen) && byte_is 0 IsPathSeparator path &&
         byte_is 1 IsPathSeparator path
      then FromSlash path else path +:+ "."
  | String c _ as rest =>
      let rooted := IsPathSeparator c in
      let body :=
        String.concat (String Separator "")
          (clean_components rooted [] (split_path rest)) in
      let out := (if rooted then String Separator "" else "") +:+ body in
      let out := if decide (out = "") then "." else out in
      FromSlash (String.substring 0 volLen path +:+ postClean volLen rest out)
  end.

Fixpoint last_byte (s : string) : option ascii :=
  match s with
  | "" => None
  | String c "" => Some c
  | String _ s' => last_byte s'
  end.

Fixpoint trim_separators (e : string) : string :=
  match e with
  | "" => ""
  | String c e' => if IsPathSeparator c then trim_separators e' else e
  end.

(** [filepath.Join(a, b)]: the elements are put together, with a
    separator between them unless the first ends in a separator or in a
    colon, and the result is cleaned; an empty first element is ignored,
    and two empty elements give the empty string. *)
Definition filepath_Join (a b : string) : string :=
  match last_byte a with
  | None => match b with "" => "" | _ => filepath_Clean b end
  | Some c =>
      filepath_Clean
        (if IsPathSeparator c then
           let e := trim_separators b in
           let escape :=
             (String.length a =? 1) && String.prefix "??" e &&
             match skip 2 e with
             | "" => true
             | String c2 _ => IsPathSeparator c2
             end in
           a +:+ (if escape then String "." (String Separator "") else "") +:+ e
         else if Ascii.eqb c ":" then a +:+ b
         else a +:+ String Separator b)
  end.

(** ** Errors, results and the world *)

(** The values of Go's [error] the program distinguishes; [nil] is [None]
    of [option error]. *)
Inductive error : Type :=
| SkipDir                 (* filepath.SkipDir *)
| dummyError              (* dummyError{} *)
| IOError (msg : string). (* an error of the operating system *)

Global Instance error_eq_dec : EqDecision error.
Proof. solve_decision. Defined.

(** [err.Error()], and what [log] prints for a [nil] error. *)
Definition error_text (e : option error) : string :=
  match e with
  | None => "<nil>"
  | Some SkipDir => "skip this directory"
  | Some dummyError => ""
  | Some (IOError msg) => msg
  end.

(** A directory tree as [os.Lstat] and the directory listing show it.
    The entries of a directory are kept in the order in which the
    listing returns them (sorted by name). *)
#[local] Set Warnings "-register-all".
Inductive node : Type :=
| File (name : string)
| Dir (name : string) (entries : list node)
| NoList (name : string) (err : string). (* a directory that cannot be listed *)

Record FileInfo : Type := mkInfo { Name : string; IsDir : bool }.

Definition stat (n : node) : FileInfo :=
  match n with
  | File name => mkInfo name false
  | Dir name _ => mkInfo name true
  | NoList name _ => mkInfo name true
  end.

Inductive lstat_result : Type :=
| StatErr (err : string)
| StatOk (n : node).

Inductive file_state : Type :=
| Absent
| Unreadable (err : string)
| Content (data : string).

Inductive result (A : Type) : Type :=
| Ret (a : A)
| Fatal (msg : string).
Arguments Ret {A} a.
Arguments Fatal {A} msg.

Record World : Type := mkWorld {
  w_lstat : string → lstat_result;          (* os.Lstat and the tree below *)
  w_file : string → file_state;             (* os.Stat and ioutil.ReadFile *)
  w_config : file_state;                    (* config.toml in the global folder *)
  w_create : option string;                 (* error of configDir.Create, if any *)
  w_write : option (nat * string);          (* a write that fails: the bytes that
                                               reach the file before, and the error *)
  w_start : string → list string → option string; (* error of cmd.Start, if any *)
  w_recent : result string;                 (* what askProject yields *)
  w_stderr : list string;                   (* lines written by package log *)
  w_stdout : list string;                   (* lines written by fmt.Println *)
  w_started : list (string * list string)   (* processes started *)
}.

(** ** The monad of the program: state passing, [log.Fatal] stops *)

Definition M (A : Type) : Type := World → result A * World.

Definition ret {A} (a : A) : M A := λ w, (Ret a, w).

Definition bind {A B} (m : M A) (k : A → M B) : M B :=
  λ w, match m w with
       | (Ret a, w') => k a w'
       | (Fatal msg, w') => (Fatal msg, w')
       end.

Notation "'let*' x := m 'in' k" := (bind m (λ x, k))
  (at level 10, x name, m at level 100, k at level 200, only parsing).

(** The writes of the program to its world. *)
Definition add_stderr (line : string) (w : World) : World :=
  mkWorld (w_lstat w) (w_file w) (w_config w) (w_create w) (w_write w) (w_start w)
    (w_recent w) (w_stderr w ++ [line]) (w_stdout w) (w_started w).

Definition add_stdout (line : string) (w : World) : World :=
  mkWorld (w_lstat w) (w_file w) (w_config w) (w_create w) (w_write w) (w_start w)
    (w_recent w) (w_stderr w) (w_stdout w ++ [line]) (w_started w).

Definition add_started (exe : string) (args : list string) (w : World) : World :=
  mkWorld (w_lstat w) (w_file w) (w_config w) (w_create w) (w_write w) (w_start w)
    (w_recent w) (w_stderr w) (w_stdout w) (w_started w ++ [(exe, args)]).

Definition set_config (c : file_state) (w : World) : World :=
  mkWorld (w_lstat w) (w_file w) c (w_create w) (w_write w) (w_start w)
    (w_recent w) (w_stderr w) (w_stdout w) (w_started w).

(** [fmt.Println] and [log.Println]. *)
Definition fmt_Println (line : string) : M unit := λ w, (Ret tt, add_stdout line w).
Definition log_Println (line : string) : M unit := λ w, (Ret tt, add_stderr line w).

(** [log.Fatal]: the message goes to the standard error stream and the
    process exits with status 1. *)
Definition log_Fatal {A} (msg : string) : M A := λ w, (Fatal msg, add_stderr msg w).

(** ** filepath.Walk *)

Definition WalkFunc (S : Type) : Type :=
  string → option FileInfo → option error → S → option error * S.

Definition is_SkipDir (e : error) : bool :=
  match e with SkipDir => true | _ => false end.

Section Walk.
Context {S : Type} (walkFn : WalkFunc S).

(** [walk], as the current library has it: a file is handed to the
    callback; a directory is listed first and then handed to the callback
    together with the error of the listing, if any, and when either that
    error or the answer of the callback is not nil, the answer is
    returned.  In the
    loop over the entries a [SkipDir] answered for a directory entry skips
    that entry only; any other non-nil answer, and a [SkipDir] answered for
    a file, ends the enclosing directory with that answer. *)
Fixpoint walk (path : string) (n : node) (st : S) {struct n} : option error * S :=
  match n with
  | File _ => walkFn path (Some (stat n)) None st
  | NoList _ e => walkFn path (Some (stat n)) (Some (IOError e)) st
  | Dir _ entries =>
      match walkFn path (Some (stat n)) None st with
      | (Some e1, st1) => (Some e1, st1)
      | (None, st1) =>
          (fix each (es : list node) (st : S) {struct es} : option error * S :=
             match es with
             | [] => (None, st)
             | c :: es' =>
                 match walk (filepath_Join path (Name (stat c))) c st with
                 | (Some e, st') =>
                     if negb (IsDir (stat c)) || negb (is_SkipDir e)
                     then (Some e, st')
                     else each es' st'
                 | (None, st') => each es' st'
                 end
             end) entries st1
      end
  end.

(** The loop of [walk] over the entries of a directory, by itself. *)
Fixpoint walk_entries (path : string) (es : list node) (st : S)
  : option error * S :=
  match es with
  | [] => (None, st)
  | c :: es' =>
      match walk (filepath_Join path (Name (stat c))) c st with
      | (Some e, st') =>
          if negb (IsDir (stat c)) || negb (is_SkipDir e)
          then (Some e, st')
          else walk_entries path es' st'
      | (None, st') => walk_entries path es' st'
      end
  end.

Definition Walk (lstat : string → lstat_result) (root : string) (st : S)
  : option error * S :=
  let r := match lstat root with
           | StatErr e => walkFn root None (Some (IOError e)) st
           | StatOk n => walk root n st
           end in
  match r with
  | (Some SkipDir, st') => (None, st')
  | r' => r'
  end.
End Walk.

(** ** deepFind *)

(** The callback of [deepFind]; its state is the captured variable
    [foundPath]. *)
Definition deepFind_fn : WalkFunc string := λ path info err foundPath,
  match err with
  | Some e => (Some e, foundPath)
  | None =>
      let depth := strings_Count path Separator in
      if decide (depthCutoff < depth) then (Some SkipDir, foundPath)
      else match info with
           | Some i =>
               if negb (IsDir i) && String.eqb (Name i) "Unity.exe"
               then (Some dummyError, path)
               else (None, foundPath)
           | None => (None, foundPath) (* Walk passes no info only with an error *)
           end
  end.

Definition deepFind (root name : string) : M string := λ w,
  match Walk deepFind_fn (w_lstat w) root "" with
  | (err, foundPath) =>
      if decide (err ≠ Some dummyError) then log_Fatal (error_text err) w
      else (Ret foundPath, w)
  end.

(** ** The configuration *)

Record Config : Type := mkConfig {
  ProgramDir : string;
  DirPattern : string;
  Versions : gmap string string
}.

Definition defaultConfig : Config :=
  mkConfig "C:/Program Files" "^Unity(.+)$" ∅.

(** ** getProjectVersion *)

(** [regexp.MustCompile(versionPattern).FindSubmatch]: the pattern is the
    literal [versionMarker] followed by one capture group [(.+)].  A dot
    matches every byte but the line feed, the repetition is greedy, and the
    leftmost match wins: the first position at which the marker stands and
    is followed by at least one byte that is not a line feed.  The result
    is the list of the whole match and the capture, or the empty list. *)
Definition versionMarker : string := "m_EditorVersion: ".

Fixpoint line_rest (s : string) : string :=
  match s with
  | "" => ""
  | String c s' => if Ascii.eqb c LF then "" else String c (line_rest s')
  end.

Definition match_here (data : string) : list string :=
  if String.prefix versionMarker data then
    match line_rest (skip (String.length versionMarker) data) with
    | "" => []
    | cap => [versionMarker +:+ cap; cap]
    end
  else [].

Fixpoint versionPattern_FindSubmatch (data : string) : list string :=
  match match_here data with
  | [] => match data with
          | "" => []
          | String _ data' => versionPattern_FindSubmatch data'
          end
  | s => s
  end.

Definition isExists (path : string) (w : World) : bool :=
  match w_file w path with
  | Absent => false
  | _ => true
  end.

Definition ioutil_ReadFile (path : string) (w : World) : string + string :=
  match w_file w path with
  | Absent => inl "open: file does not exist"
  | Unreadable e => inl e
  | Content data => inr data
  end.

Definition getProjectVersion (projectPath : string) : M string := λ w,
  let p := filepath_Join projectPath "ProjectSettings/ProjectVersion.txt" in
  if negb (isExists p w) then log_Fatal "No ProjectVersion.txt" w
  else match ioutil_ReadFile p w with
       | inl err => log_Fatal err w
       | inr data =>
           let s := versionPattern_FindSubmatch data in
           if decide (length s < 2)
           then log_Fatal "ProjectVersion.txt doesn't have m_EditorVersion" w
           else (Ret (default "" (s !! 1)), w)
       end.

(** ** openProject *)

(** [exec.Command(exe, args...).Start()]. *)
Definition cmd_Start (exe : string) (args : list string) : M unit := λ w,
  match w_start w exe args with
  | Some err => log_Fatal err w
  | None =>
      (Ret tt, add_started exe args w)
  end.

Definition openProject (config : Config) (path : string) : M unit :=
  let* version := getProjectVersion path in
  match Versions config !! version with
  | None => log_Fatal "The version not found"
  | Some exe => cmd_Start exe ["-projectPath"; path]
  end.

(** ** getVersionKeys *)

(** [sort.Strings]: ascending in the byte-wise order of Go's [<] on
    strings.  The sorted permutation of a list is unique for this order, so
    any sorting algorithm stands for the library's. *)
Definition sort_Strings (l : list string) : list string :=
  merge_sort String.le l.

(** The loop over the map, for the sequence of keys in which the [range]
    statement happens to yield them; Go leaves that order unspecified. *)
Fixpoint partition_keys (it : list string) (keys newKeys : list string)
  : list string * list string :=
  match it with
  | [] => (keys, newKeys)
  | key :: it' =>
      if strings_HasPrefix key "20"
      then partition_keys it' keys (newKeys ++ [key])
      else partition_keys it' (keys ++ [key]) newKeys
  end.

Definition getVersionKeys_range (it : list string) : list string :=
  match partition_keys it [] [] with
  | (keys, newKeys) => sort_Strings keys ++ sort_Strings newKeys
  end.

Definition getVersionKeys (config : Config) : list string :=
  getVersionKeys_range (map_to_list (Versions config)).*1.

(** ** The scan, the rebuild and the entry point *)

(** A compiled regular expression is represented by what its
    [FindStringSubmatch] returns: the whole match followed by the capture
    groups, or the empty list when the subject does not match. *)
Definition Regexp : Type := string → list string.

(** [ioutil.ReadDir]: the entries of a directory, sorted by name. *)
Definition ioutil_ReadDir (dirname : string) (w : World) : string + list FileInfo :=
  match w_lstat w dirname with
  | StatErr e => inl e
  | StatOk (File _) => inl "readdir: not a directory"
  | StatOk (NoList _ e) => inl e
  | StatOk (Dir _ entries) => inr (stat <$> entries)
  end.

(** What [askProject] returns; reading the list of recent projects from
    the Windows registry and the index from the standard input are outside
    the engine, and a failure there is fatal. *)
Definition askProject : M string := λ w,
  match w_recent w with
  | Ret p => (Ret p, w)
  | Fatal msg => log_Fatal msg w
  end.

(** A panic ends the process like [log.Fatal] does. *)
Definition panic {A} (msg : string) : M A := log_Fatal ("panic: " +:+ msg).

Section Engine.
(** The two libraries the engine is written against: the regular
    expression compiler ([None] when [regexp.MustCompile] panics) and the
    TOML encoder and decoder of [Config] ([None] when decoding fails). *)
Variable regexp_MustCompile : string → option Regexp.
Variable toml_Encode : Config → string.
Variable toml_Decode : string → option Config.

(** The body of the loop of [loadVersions] over the listing. *)
Fixpoint loadVersions_loop (config : Config) (r : Regexp) (files : list FileInfo)
    (versions : gmap string string) : M (gmap string string) :=
  match files with
  | [] => ret versions
  | file :: files' =>
      if negb (IsDir file) then loadVersions_loop config r files' versions
      else
        let name := Name file in
        let s := r name in
        if decide (2 ≤ length s) then
          let p := path_Join (ProgramDir config) name in
          let* exe := deepFind p "Unity.exe" in
          if decide (exe = "") then
            let* _ := log_Println (name +:+ " has no Unity.exe!") in
            loadVersions_loop config r files' versions
          else loadVersions_loop config r files' (<[default "" (s !! 1) := exe]> versions)
        else loadVersions_loop config r files' versions
  end.

Definition loadVersions (config : Config) : M (gmap string string) :=
  match regexp_MustCompile (DirPattern config) with
  | None => panic ("regexp: Compile(" +:+ DirPattern config +:+ ")")
  | Some r => λ w,
      match ioutil_ReadDir (ProgramDir config) w with
      | inl err => log_Fatal err w
      | inr files => loadVersions_loop config r files ∅ w
      end
  end.

(** [configDir.Create] creates (or truncates) the file, then the encoder
    writes the document through its buffer.  A write that fails leaves in
    the file the bytes that reached it before: a proper prefix of the
    document, empty or not; a document no longer than what the file takes
    is written whole. *)
Definition output (config : Config) : M unit := λ w,
  match w_create w with
  | Some err => log_Fatal err w
  | None =>
      let w1 := set_config (Content "") w in
      let doc := toml_Encode config in
      match w_write w1 with
      | Some (n, err) =>
          if decide (n < String.length doc)
          then log_Fatal err (set_config (Content (String.substring 0 n doc)) w1)
          else (Ret tt, set_config (Content doc) w1)
      | None => (Ret tt, set_config (Content doc) w1)
      end
  end.

(** [initialize] assigns through its pointer receiver; here it returns
    the configuration it leaves behind. *)
Definition initialize : M Config :=
  let config := defaultConfig in
  let* versions := loadVersions config in
  let config := mkConfig (ProgramDir config) (DirPattern config) versions in
  let* _ := output config in
  ret config.

(** [toml.DecodeFile(configPath, &config)] on the zero [Config]. *)
Definition toml_DecodeFile (w : World) : option Config :=
  match w_config w with
  | Content doc => toml_Decode doc
  | _ => None
  end.

(** The first statement group of [main]: which configuration the run
    works with. *)
Definition startup (reload : bool) : M Config :=
  if reload then initialize
  else λ w, match toml_DecodeFile w with
            | None => initialize w
            | Some config => (Ret config, w)
            end.

Fixpoint print_versions (config : Config) (keys : list string) : M unit :=
  match keys with
  | [] => ret tt
  | ver :: keys' =>
      let* _ := fmt_Println (ver +:+ " : " +:+ default "" (Versions config !! ver)) in
      print_versions config keys'
  end.

(** [main], given [os.Args] and the values of the two flags. *)
Definition main (os_Args : list string) (reload list : bool) : M unit :=
  let project :=
    match os_Args !! 1 with
    | Some a => if negb (strings_HasPrefix a "-") then a else ""
    | None => ""
    end in
  let* config := startup reload in
  if list then print_versions config (getVersionKeys config)
  else
    let* project := (if decide (project = "") then askProject else ret project) in
    openProject config project.
End Engine.

(** * Specification vocabulary *)

(** The depth [deepFind] compares with the cutoff: the number of
    separators in the path string. *)
Definition depth (p : string) : nat := strings_Count p Separator.

(** [target_at path n p]: in the tree [n] visited under the name [path],
    [p] is the path under which the walk visits a non-directory named
    Unity.exe, [p] holds at most [depthCutoff] separators, and so does the
    path of every directory between the root and it, each of which can be
    listed. *)
Inductive target_at : string → node → string → Prop :=
| target_here path :
    depth path ≤ depthCutoff →
    target_at path (File "Unity.exe") path
| target_below path name entries c p :
    depth path ≤ depthCutoff →
    c ∈ entries →
    target_at (filepath_Join path (Name (stat c))) c p →
    target_at path (Dir name entries) p.

(** Names a directory listing on Windows can return: one path element
    other than the dot names, without a separator and without the
    reserved colon and question mark. *)
Definition wf_name (name : string) : Prop :=
  name ≠ "" ∧ name ≠ "." ∧ name ≠ ".." ∧
  strings_Count name Separator = 0 ∧ strings_Count name Slash = 0 ∧
  strings_Count name ":" = 0 ∧ strings_Count name "?" = 0.

(** A plain path: an optional drive letter with its colon, an optional
    separator, and then elements that are such names, one separator
    (of either direction) between two of them and none at the end.  A walk
    root handed to [deepFind] by [loadVersions] under [defaultConfig] is
    of this kind. *)
Definition proper_element (e : string) : bool :=
  negb (bool_decide (e = "" ∨ e = "." ∨ e = "..")).

Definition plain_rest (rest : string) : bool :=
  (strings_Count rest ":" =? 0) && (strings_Count rest "?" =? 0) &&
  match split_path rest with
  | "" :: e :: es => forallb proper_element (e :: es)
  | es => forallb proper_element es
  end.

Definition is_letter (c : ascii) : bool :=
  let n := nat_of_ascii (toUpper c) in (65 <=? n) && (n <=? 90).

Definition plain_path (p : string) : bool :=
  if byte_is 1 (λ c, Ascii.eqb c ":") p
  then byte_is 0 is_letter p && plain_rest (skip 2 p)
  else plain_rest p.

Inductive wf_tree : node → Prop :=
| wf_File name : wf_tree (File name)
| wf_NoList name err : wf_tree (NoList name err)
| wf_Dir name entries :
    Forall (λ c, wf_name (Name (stat c)) ∧ wf_tree c) entries →
    wf_tree (Dir name entries).

(** [unlistable e n]: some directory of [n] fails to be listed, with
    error [e]. *)
Inductive unlistable (e : string) : node → Prop :=
| unlistable_here name : unlistable e (NoList name e)
| unlistable_below name entries c :
    c ∈ entries → unlistable e c → unlistable e (Dir name entries).

(** Induction on trees, with the property available for every entry of a
    directory. *)
Section node_induction.
Variable P : node → Prop.
Hypothesis PFile : ∀ name, P (File name).
Hypothesis PDir : ∀ name entries, Forall P entries → P (Dir name entries).
Hypothesis PNoList : ∀ name err, P (NoList name err).

Fixpoint node_nested_ind (n : node) : P n :=
  match n with
  | File name => PFile name
  | NoList name err => PNoList name err
  | Dir name entries =>
      PDir name entries
        ((fix all (es : list node) : Forall P es :=
            match es with
            | [] => List.Forall_nil P
            | c :: es' => List.Forall_cons P c es' (node_nested_ind c) (all es')
            end) entries)
  end.
End node_induction.

(** What an answer of the walk under [deepFind]'s callback tells, for a
    node and for the entries of a directory. *)
Definition walk_answer (path : string) (n : node) (st : string)
    (r : option error * string) : Prop :=
  match r.1 with
  | Some dummyError => target_at path n r.2
  | Some SkipDir =>
      r.2 = st ∧ (IsDir (stat n) = false → depthCutoff < depth path)
  | Some (IOError e) => r.2 = st ∧ unlistable e n
  | None => r.2 = st
  end.

Definition entries_answer (path : string) (es : list node) (st : string)
    (r : option error * string) : Prop :=
  match r.1 with
  | Some dummyError =>
      ∃ c, c ∈ es ∧ target_at (filepath_Join path (Name (stat c))) c r.2
  | Some SkipDir =>
      r.2 = st ∧ ∃ c, c ∈ es ∧ IsDir (stat c) = false ∧
                      depthCutoff < depth (filepath_Join path (Name (stat c)))
  | Some (IOError e) => r.2 = st ∧ ∃ c, c ∈ es ∧ unlistable e c
  | None => r.2 = st
  end.

(** The nodes the walk hands to the callback of [deepFind], in that
    order, as long as no answer ends the walk: a directory before its
    entries, the entries in the order of the listing; a directory whose
    path holds more than [depthCutoff] separators is not entered, and a
    file whose path holds more ends the directory it is in. *)
Fixpoint visited (path : string) (n : node) : list (string * node) :=
  (path, n) ::
  match n with
  | Dir _ entries =>
      if decide (depthCutoff < depth path) then []
      else
        (fix each (es : list node) : list (string * node) :=
           match es with
           | [] => []
           | c :: es' =>
               let pc := filepath_Join path (Name (stat c)) in
               visited pc c ++
               (if negb (IsDir (stat c)) && bool_decide (depthCutoff < depth pc)
                then [] else each es')
           end) entries
  | _ => []
  end.

Fixpoint visited_entries (path : string) (es : list node) : list (string * node) :=
  match es with
  | [] => []
  | c :: es' =>
      let pc := filepath_Join path (Name (stat c)) in
      visited pc c ++
      (if negb (IsDir (stat c)) && bool_decide (depthCutoff < depth pc)
       then [] else visited_entries path es')
  end.

(** The visits that end the walk: a non-directory named Unity.exe within
    the cutoff, and a directory that cannot be listed. *)
Inductive stop : Type :=
| Found (p : string)
| Aborted (e : string).

Definition stop_of (pn : string * node) : option stop :=
  match pn.2 with
  | File name =>
      if String.eqb name "Unity.exe" && bool_decide (depth pn.1 ≤ depthCutoff)
      then Some (Found pn.1) else None
  | NoList _ e => Some (Aborted e)
  | Dir _ _ => None
  end.

Definition first_stop (l : list (string * node)) : option stop :=
  head (omap stop_of l).

(** What the walk answers when its first stop is [s]. *)
Definition stop_answer (s : option stop) (st : string)
    (r : option error * string) : Prop :=
  match s with
  | Some (Found p) => r = (Some dummyError, p)
  | Some (Aborted e) => r = (Some (IOError e), st)
  | None => r = (None, st) ∨ r = (Some SkipDir, st)
  end.

(** What [deepFind] makes of the first stop. *)
Definition stop_outcome (s : option stop) (w : World) : result string * World :=
  match s with
  | Some (Found p) => (Ret p, w)
  | Some (Aborted e) => (Fatal e, add_stderr e w)
  | None => (Fatal "<nil>", add_stderr "<nil>" w)
  end.

(** Keys of the second group of [getVersionKeys]. *)
Definition is_new (key : string) : Prop := strings_HasPrefix key "20" = true.

Global Instance is_new_dec key : Decision (is_new key).
Proof. unfold is_new. apply _. Defined.

(** A match of [versionPattern] can start where the marker stands and a
    byte other than the line feed follows it. *)
Definition match_starts (s : string) : Prop :=
  ∃ c rest, s = versionMarker +:+ String c rest ∧ c ≠ LF.

(** No match starts anywhere in [s]. *)
Definition no_match (s : string) : Prop :=
  ∀ a b, s = a +:+ b → ¬ match_starts b.

(** [data] is [pre], the marker, the capture [cap] and [post]; the
    capture is the whole remainder of the line, not empty, and no match
    starts inside [pre]. *)
Definition leftmost_match (data pre cap post : string) : Prop :=
  data = pre +:+ versionMarker +:+ cap +:+ post ∧
  cap ≠ "" ∧
  strings_Count cap LF = 0 ∧
  (post = "" ∨ ∃ post', post = String LF post') ∧
  ∀ a b, pre = a +:+ b → b ≠ "" →
         ¬ match_starts (b +:+ versionMarker +:+ cap +:+ post).

(** The metadata file of a project. *)
Definition versionFile (projectPath : string) : string :=
  filepath_Join projectPath "ProjectSettings/ProjectVersion.txt".

(** The messages of the fatal exits. *)
Definition msg_nil : string := "<nil>".
Definition msg_no_file : string := "No ProjectVersion.txt".
Definition msg_no_field : string := "ProjectVersion.txt doesn't have m_EditorVersion".
Definition msg_not_found : string := "The version not found".

(** Where an entry of a scanned mapping comes from: a directory of the
    listing, the first capture group of the pattern on its name, and an
    executable found under it. *)
Definition contributes (config : Config) (r : Regexp) (w : World)
    (file : FileInfo) (key exe : string) : Prop :=
  IsDir file = true ∧
  r (Name file) !! 1 = Some key ∧
  ∃ n, w_lstat w (path_Join (ProgramDir config) (Name file)) = StatOk n ∧
       target_at (path_Join (ProgramDir config) (Name file)) n exe.

(** The configuration a rebuild makes of the scanned versions. *)
Definition rebuilt (versions : gmap string string) : Config :=
  mkConfig (ProgramDir defaultConfig) (DirPattern defaultConfig) versions.

(** What a run that ends in [r] has added to the standard error stream. *)
Definition fatal_line {A} (r : result A) : list string :=
  match r with
  | Ret _ => []
  | Fatal msg => [msg]
  end.

(** * Sample instances, to run the engine on *)

(** The regular expression [^Unity(.+)$] of [defaultConfig]: the name
    starts with Unity and goes on with at least one byte, none of them a
    line feed. *)
Definition unity_dir_re : Regexp := λ name,
  if String.prefix "Unity" name then
    match skip 5 name with
    | "" => []
    | rest => if decide (line_rest rest = rest) then [name; rest] else []
    end
  else [].

(** A compiler that knows the pattern of [defaultConfig] only. *)
Definition sample_MustCompile (pattern : string) : option Regexp :=
  if decide (pattern = DirPattern defaultConfig) then Some unity_dir_re else None.

(** A codec for documents of the shape of the persisted file: two
    quoted scalars, the table header, and one quoted pair per version, with
    the backslash and the quote escaped by a backslash. *)
Definition DQ : ascii := "034"%char.

Fixpoint escape (s : string) : string :=
  match s with
  | "" => ""
  | String c s' =>
      if Ascii.eqb c DQ || Ascii.eqb c Separator
      then String Separator (String c (escape s'))
      else String c (escape s')
  end.

Definition quoted (s : string) : string := String DQ (escape s +:+ String DQ "").

(** Reads an escaped string up to its closing quote; returns it and what
    follows the quote. *)
Fixpoint unquote (s : string) : option (string * string) :=
  match s with
  | "" => None
  | String c s' =>
      if Ascii.eqb c DQ then Some ("", s')
      else if Ascii.eqb c Separator then
        match s' with
        | String d s'' =>
            match unquote s'' with
            | Some (v, rest) => Some (String d v, rest)
            | None => None
            end
        | "" => None
        end
      else match unquote s' with
           | Some (v, rest) => Some (String c v, rest)
           | None => None
           end
  end.

Definition after (pre s : string) : option string :=
  if String.prefix pre s then Some (skip (String.length pre) s) else None.

Definition parse_quoted (pre line : string) : option (string * string) :=
  match after (pre +:+ String DQ "") line with
  | Some s => unquote s
  | None => None
  end.

Definition parse_scalar (key line : string) : option string :=
  match parse_quoted (key +:+ " = ") line with
  | Some (v, "") => Some v
  | _ => None
  end.

Definition parse_pair (line : string) : option (string * string) :=
  match parse_quoted "" line with
  | Some (k, rest) =>
      match parse_quoted " = " rest with
      | Some (v, "") => Some (k, v)
      | _ => None
      end
  | None => None
  end.

Fixpoint parse_pairs (lines : list string) : option (list (string * string)) :=
  match lines with
  | [] => Some []
  | "" :: lines' => parse_pairs lines'
  | line :: lines' =>
      match parse_pair line, parse_pairs lines' with
      | Some kv, Some kvs => Some (kv :: kvs)
      | _, _ => None
      end
  end.

Definition sample_Encode (config : Config) : string :=
  String.concat (String LF "")
    (["ProgramDir = " +:+ quoted (ProgramDir config);
      "DirPattern = " +:+ quoted (DirPattern config);
      "";
      "[Versions]"]
     ++ ((λ kv, quoted kv.1 +:+ " = " +:+ quoted kv.2) <$> map_to_list (Versions config))
     ++ [""]).

Definition sample_Decode (doc : string) : option Config :=
  match split_on LF doc with
  | l1 :: l2 :: "" :: "[Versions]" :: lines =>
      match parse_scalar "ProgramDir" l1, parse_scalar "DirPattern" l2,
            parse_pairs lines with
      | Some dir, Some pat, Some kvs => Some (mkConfig dir pat (list_to_map kvs))
      | _, _, _ => None
      end
  | _ => None
  end.

(** A file system that answers for a directory and for its entries. *)
Definition lstat_in (dir : string) (t : node) (path : string) : lstat_result :=
  if decide (path = dir) then StatOk t
  else match t with
       | Dir _ entries =>
           match list_find (λ c, path = path_Join dir (Name (stat c))) entries with
           | Some (_, c) => StatOk c
           | None => StatErr "The system cannot find the file specified."
           end
       | _ => StatErr "The system cannot find the file specified."
       end.

Definition sample_world (lstat : string → lstat_result)
    (projectVersion stored : file_state) : World :=
  mkWorld lstat
    (λ path, if decide (path = "C:\proj\ProjectSettings\ProjectVersion.txt")
             then projectVersion else Absent)
    stored None None (λ _ _, None) (Ret "C:/proj") [] [] [].

Definition editor : node := Dir "Editor" [File "Unity.exe"].

(** Two installed versions, each with its executable. *)
Definition installed : node :=
  Dir "Program Files"
    [Dir "Git" [File "git.exe"];
     Dir "Unity2019.4.1f1" [Dir "Editor" [Dir "Data" []; File "Unity.exe"]];
     Dir "Unity5.6.1f1" [editor];
     File "Unity.txt"].

(** A matched directory that holds no executable, before one that does. *)
Definition missing_executable : node :=
  Dir "Program Files"
    [Dir "Unity2019.4.1f1" [Dir "Editor" [File "Readme.txt"]];
     Dir "Unity5.6.1f1" [editor]].

(** A directory that cannot be listed, before the one with the
    executable. *)
Definition denied : node :=
  Dir "Unity5.6.1f1" [NoList "Data" "Access is denied."; editor].

Definition root56 : string := "C:/Program Files/Unity5.6.1f1".
Definition exe56 : string := "C:\Program Files\Unity5.6.1f1\Editor\Unity.exe".

Definition version_lf : string := "m_EditorVersion: 5.6.1f1" +:+ String LF "".
Definition version_crlf : string :=
  "m_EditorVersion: 5.6.1f1" +:+ String CR (String LF "").
Definition version_other : string := "m_EditorVersion: 9.9.9" +:+ String LF "".

Definition w_installed : World :=
  sample_world (lstat_in (ProgramDir defaultConfig) installed)
    (Content version_lf) Absent.
Definition w_missing : World :=
  sample_world (lstat_in (ProgramDir defaultConfig) missing_executable)
    Absent Absent.
Definition w_denied : World :=
  sample_world (lstat_in root56 denied) Absent Absent.
Definition w_crlf : World :=
  sample_world (lstat_in (ProgramDir defaultConfig) installed)
    (Content version_crlf) Absent.
Definition w_other : World :=
  sample_world (lstat_in (ProgramDir defaultConfig) installed)
    (Content version_other) Absent.

(** The mapping of the two installed versions, and the configuration
    and the world a rebuild makes of it. *)
Definition versions_installed : gmap string string :=
  list_to_map
    [("2019.4.1f1", "C:\Program Files\Unity2019.4.1f1\Editor\Unity.exe");
     ("5.6.1f1", exe56)].
Definition config_installed : Config := rebuilt versions_installed.
Definition w_rebuilt : World :=
  set_config (Content (sample_Encode config_installed)) w_installed.

(** The keys of the example of the ordering law. *)
Definition config_four : Config :=
  rebuilt (list_to_map [("2021.1", "a"); ("5.6", "b"); ("2019.4", "c"); ("4.7", "d")]).

(** * More vocabulary: the order of the walk *)

(** The nodes of a tree with the paths under which the walk names them,
    in the order in which a walk that skips nothing meets them. *)
Fixpoint preorder (path : string) (n : node) : list (string * node) :=
  (path, n) ::
  match n with
  | Dir _ entries =>
      (fix each (es : list node) : list (string * node) :=
         match es with
         | [] => []
         | c :: es' => preorder (filepath_Join path (Name (stat c))) c ++ each es'
         end) entries
  | _ => []
  end.

Fixpoint preorder_entries (path : string) (es : list node) : list (string * node) :=
  match es with
  | [] => []
  | c :: es' =>
      preorder (filepath_Join path (Name (stat c))) c ++ preorder_entries path es'
  end.

(** A non-directory named Unity.exe whose path is within the cutoff. *)
Definition is_file_named (target : string) (n : node) : bool :=
  match n with
  | File name => String.eqb name target
  | _ => false
  end.

Definition executable_withinb (pn : string * node) : bool :=
  is_file_named "Unity.exe" pn.2 && bool_decide (depth pn.1 ≤ depthCutoff).

(** The first executable within the cutoff, in the order of the walk. *)
Definition first_executable (path : string) (n : node) : option string :=
  fst <$> head (filter (λ pn, executable_withinb pn = true) (preorder path n)).

(** Every directory of the tree can be listed. *)
Definition listable (n : node) : Prop := ∀ e, ¬ unlistable e n.

(** The answer of the walk on a tree that can be listed throughout: the
    first executable within the cutoff, or no executable. *)
Definition first_answer (found : option (string * node)) (st : string)
    (r : option error * string) : Prop :=
  match found with
  | Some pn => r = (Some dummyError, pn.1)
  | None => r = (None, st) ∨ r = (Some SkipDir, st)
  end.

(** Two executables under one installation. *)
Definition two_executables : node :=
  Dir "Unity5.6.1f1" [Dir "Backup" [File "Unity.exe"]; editor].
Definition w_two : World :=
  sample_world (lstat_in root56 two_executables) Absent Absent.

(** The regular expression [^Unity(5).*$]: the name starts with Unity5 and
    holds no line feed; the capture is the digit. *)
Definition unity5_re : Regexp := λ name,
  if String.prefix "Unity5" name && bool_decide (line_rest name = name)
  then [name; "5"] else [].

Definition config_major : Config :=
  mkConfig (ProgramDir defaultConfig) "^Unity(5).*$" ∅.

Definition major_MustCompile (pattern : string) : option Regexp :=
  if decide (pattern = DirPattern config_major) then Some unity5_re else None.

(** Two installations of major version 5. *)
Definition two_fives : node :=
  Dir "Program Files" [Dir "Unity5.5.0f1" [editor]; Dir "Unity5.6.1f1" [editor]].
Definition w_fives : World :=
  sample_world (lstat_in (ProgramDir defaultConfig) two_fives) Absent Absent.

(** The line [main] prints for a version in list mode, and the world
    after a sequence of lines was printed. *)
Definition version_line (config : Config) (ver : string) : string :=
  ver +:+ " : " +:+ default "" (Versions config !! ver).

Definition printed (lines : list string) (w : World) : World :=
  foldl (λ w line, add_stdout line w) w lines.

(** The world after a rebuild, on a disk that takes ten more bytes. *)
Definition w_disk_full : World :=
  mkWorld (w_lstat w_rebuilt) (w_file w_rebuilt) (w_config w_rebuilt) None
    (Some (10, "There is not enough space on the disk.")) (w_start w_rebuilt)
    (w_recent w_rebuilt) [] [] [].

(** * askProject and getRecentProjects

    The oracle [askProject] above stands for these two functions in
    [main]; here they are as the source has them.  What the registry
    answers and what [stdin.Text()] holds after the one [Scan] are given in
    a [Console]; the builtin [print] and [println] write to the standard
    error stream, one entry of [w_stderr] per call. *)
From stdpp Require pretty.

(** The part of Go's [strconv] package the program calls. *)
Module strconv.

(** [strconv.Atoi] for a 64-bit [int]: an optional sign, then decimal
    digits only; the digits are accumulated as [ParseUint] does, with its
    overflow test before each step, and the sign and the range of [int] are
    applied at the end. *)
Inductive atoi_result : Type :=
| AtoiOk (n : Z)
| AtoiSyntax
| AtoiRange.

Definition maxUint64 : N := 18446744073709551615.
Definition cutoff_uint64 : N := 1844674407370955162.
Definition cutoff_int64 : N := 9223372036854775808.

Definition digit_of (c : ascii) : option N :=
  let b := N_of_ascii c in
  if decide (48 ≤ b ∧ b ≤ 57)%N then Some (b - 48)%N else None.

Fixpoint ParseUint (s : string) (n : N) : N + bool :=
  match s with
  | "" => inl n
  | String c s' =>
      match digit_of c with
      | None => inr false (* a byte that is no digit: syntax *)
      | Some d =>
          if decide (cutoff_uint64 ≤ n)%N then inr true (* range *)
          else let n1 := (n * 10 + d)%N in
               if decide (maxUint64 < n1)%N then inr true
               else ParseUint s' n1
      end
  end.

Definition Atoi (s : string) : atoi_result :=
  match s with
  | "" => AtoiSyntax
  | String c s' =>
      let neg := Ascii.eqb c "-" in
      let body := if neg || Ascii.eqb c "+" then s' else s in
      match body with
      | "" => AtoiSyntax
      | _ =>
          match ParseUint body 0 with
          | inr false => AtoiSyntax
          | inr true => AtoiRange
          | inl un =>
              if negb neg && bool_decide (cutoff_int64 ≤ un)%N then AtoiRange
              else if neg && bool_decide (cutoff_int64 < un)%N then AtoiRange
              else AtoiOk (if neg then - Z.of_N un else Z.of_N un)
          end
      end
  end.

End strconv.

Module Prompt.

Record Key : Type := mkKey {
  ReadValueNames : string + list string;
  GetBinaryValue : string → string + string
}.

Record Console : Type := mkConsole {
  OpenKey : string + Key;
  stdin_Text : string
}.

(** [val[:len(val)-1]] on a value that is not empty. *)
Fixpoint drop_last (val : string) : string :=
  match val with
  | "" => ""
  | String c "" => ""
  | String c val' => String c (drop_last val')
  end.

Definition builtin_println (line : string) : M unit := log_Println line.
Definition builtin_print (text : string) : M unit := log_Println text.

(** The loop of [getRecentProjects] over the value names. *)
Fixpoint getRecentProjects_loop (k : Key) (names : list string) (r : list string)
  : M (list string) :=
  match names with
  | [] => ret r
  | name :: names' =>
      if negb (strings_HasPrefix name "RecentlyUsedProjectPaths")
      then getRecentProjects_loop k names' r
      else match GetBinaryValue k name with
           | inl err => panic err
           | inr "" => panic "runtime error: slice bounds out of range [:-1]"
           | inr val => getRecentProjects_loop k names' (r ++ [drop_last val])
           end
  end.

Definition getRecentProjects (c : Console) : M (list string) :=
  match OpenKey c with
  | inl err => log_Fatal err
  | inr k =>
      match ReadValueNames k with
      | inl err => log_Fatal err
      | inr names => getRecentProjects_loop k names []
      end
  end.

Section AskProject.
(** [strconv.Atoi] and [strconv.Quote], which the message of a failed
    [Atoi] uses. *)
Variable strconv_Atoi : string → strconv.atoi_result.
Variable strconv_Quote : string → string.

Definition NumError_text (s : string) (range : bool) : string :=
  "strconv.Atoi: parsing " +:+ strconv_Quote s +:+ ": " +:+
  (if range then "value out of range" else "invalid syntax").

(** The loop that prints the menu, from index [i] on. *)
Fixpoint print_menu (i : nat) (recents : list string) : M unit :=
  match recents with
  | [] => ret tt
  | path :: recents' =>
      let* _ := builtin_println (pretty.pretty i +:+ " : " +:+ path) in
      print_menu (S i) recents'
  end.

Definition askProject (c : Console) : M string :=
  let* recents := getRecentProjects c in
  let* _ := print_menu 0 recents in
  let* _ := builtin_print (String LF "> ") in
  match strconv_Atoi (stdin_Text c) with
  | strconv.AtoiSyntax => log_Fatal (NumError_text (stdin_Text c) false)
  | strconv.AtoiRange => log_Fatal (NumError_text (stdin_Text c) true)
  | strconv.AtoiOk index =>
      if decide (index < 0 ∨ Z.of_nat (length recents) ≤ index)%Z
      then log_Fatal "The index is out of range"
      else ret (default "" (recents !! Z.to_nat index))
  end.
End AskProject.

Section Program.
Variable regexp_MustCompile : string → option Regexp.
Variable toml_Encode : Config → string.
Variable toml_Decode : string → option Config.
Variable strconv_Atoi : string → strconv.atoi_result.
Variable strconv_Quote : string → string.

(** The variable [project] of [main] before the menu: the first argument,
    unless it begins with a dash. *)
Definition project_argument (os_Args : list string) : string :=
  match os_Args !! 1 with
  | Some a => if negb (strings_HasPrefix a "-") then a else ""
  | None => ""
  end.

(** [main] with [askProject] as the source has it, in place of the
    oracle. *)
Definition main (c : Console) (os_Args : list string) (reload list : bool)
  : M unit :=
  let project := project_argument os_Args in
  let* config := startup regexp_MustCompile toml_Encode toml_Decode reload in
  if list then print_versions config (getVersionKeys config)
  else
    let* project :=
      (if decide (project = "")
       then askProject strconv_Atoi strconv_Quote c else ret project) in
    openProject config project.
End Program.

(** A registry with three recent projects and one other value. *)
Definition sample_key : Key :=
  mkKey (inr ["RecentlyUsedProjectPaths-0"; "Window"; "RecentlyUsedProjectPaths-1";
              "RecentlyUsedProjectPaths-2"])
    (λ name,
       if decide (name = "RecentlyUsedProjectPaths-0") then inr ("C:/proj" +:+ String zero "")
       else if decide (name = "RecentlyUsedProjectPaths-1") then inr ("D:/game" +:+ String zero "")
       else if decide (name = "RecentlyUsedProjectPaths-2") then inr ("D:/demo" +:+ String zero "")
       else inl "The system cannot find the file specified.").

Definition sample_console (text : string) : Console := mkConsole (inr sample_key) text.

Definition sample_Quote (s : string) : string :=
  String DQ (s +:+ String DQ "").

End Prompt.

(** The lines of the menu [askProject] prints, from index [i] on, and the
    world after a sequence of writes to the standard error stream. *)
Fixpoint menu_lines (i : nat) (recents : list string) : list string :=
  match recents with
  | [] => []
  | path :: recents' => (pretty.pretty i +:+ " : " +:+ path) :: menu_lines (S i) recents'
  end.

Definition logged (lines : list string) (w : World) : World :=
  foldl (λ w line, add_stderr line w) w lines.

(** The value names [getRecentProjects] reads. *)
Definition recent_names (names : list string) : list string :=
  filter (λ name, strings_HasPrefix name "RecentlyUsedProjectPaths" = true) names.

(** * Lemmas *)

(** ** The model on the sample worlds *)

Example versionPattern_marker : versionPattern = versionMarker +:+ "(.+)".
Proof. reflexivity. Qed.

Example path_Join_root : path_Join (ProgramDir defaultConfig) "Unity5.6.1f1" = root56.
Proof. reflexivity. Qed.

Example path_Join_cleans : path_Join "C:/Program Files/./x//../" "Unity5.6.1f1" = root56.
Proof. reflexivity. Qed.

Example filepath_Join_entry :
  filepath_Join (filepath_Join root56 "Editor") "Unity.exe" = exe56.
Proof. reflexivity. Qed.

(** [Join] cleans what it joins: a separator at the end of the first
    element, a dot element and a doubled separator leave no trace, and a
    bare drive letter gets no separator. *)
Example filepath_Join_cleans :
  filepath_Join "r/" "d1" = "r\d1" ∧
  filepath_Join "./r" "Unity.exe" = "r\Unity.exe" ∧
  filepath_Join "C:/a//b/../c" "Editor" = "C:\a\c\Editor" ∧
  filepath_Join "C:" "proj" = "C:proj" ∧
  filepath_Join "C:\" "proj" = "C:\proj" ∧
  filepath_Join "" "ProjectSettings/ProjectVersion.txt" =
    "ProjectSettings\ProjectVersion.txt".
Proof. repeat split; vm_compute; reflexivity. Qed.

Example plain_path_samples :
  plain_path root56 = true ∧ plain_path "C:proj" = true ∧
  plain_path "\tools/unity" = true ∧
  plain_path "r/" = false ∧ plain_path "./r" = false ∧ plain_path "C:" = false ∧
  plain_path "\\host\share" = false.
Proof. repeat split; vm_compute; reflexivity. Qed.

(** The root is handed to the callback as it was given, with its forward
    slashes; the paths below it are joined with separators. *)
Example depth_of_root_and_executable : depth root56 = 0 ∧ depth exe56 = 4.
Proof. split; reflexivity. Qed.

Example versionFile_of_project :
  versionFile "C:/proj" = "C:\proj\ProjectSettings\ProjectVersion.txt".
Proof. reflexivity. Qed.

Example unity_dir_re_matches :
  unity_dir_re "Unity5.6.1f1" = ["Unity5.6.1f1"; "5.6.1f1"] ∧
  unity_dir_re "Unity" = [] ∧
  unity_dir_re "Git" = [].
Proof. repeat split; reflexivity. Qed.

Example FindSubmatch_skips_empty_line_rest :
  versionPattern_FindSubmatch
    (versionMarker +:+ String LF ("m_EditorVersion: 5.6.1f1" +:+ String LF "rest")) =
    ["m_EditorVersion: 5.6.1f1"; "5.6.1f1"].
Proof. reflexivity. Qed.

Example deepFind_installed :
  deepFind root56 "Unity.exe" w_installed = (Ret exe56, w_installed).
Proof. reflexivity. Qed.

Example sample_Decode_installed :
  sample_Decode (sample_Encode config_installed) = Some config_installed ∧
  sample_Decode "ProgramDir = 1" = None.
Proof. repeat split; vm_compute; reflexivity. Qed.

(** A run with the reload flag on the installation, which asks for the
    project; then a run that loads and launches, and a run that lists. *)
Example main_reload_then_launch :
  main sample_MustCompile sample_Encode sample_Decode
    ["uvs"; "--reload"] true false w_installed =
    (Ret tt, add_started exe56 ["-projectPath"; "C:/proj"] w_rebuilt) ∧
  main sample_MustCompile sample_Encode sample_Decode
    ["uvs"; "C:/proj"] false false w_rebuilt =
    (Ret tt, add_started exe56 ["-projectPath"; "C:/proj"] w_rebuilt).
Proof. split; vm_compute; reflexivity. Qed.

Example main_list :
  w_stdout (main sample_MustCompile sample_Encode sample_Decode
              ["uvs"; "--list"] false true w_rebuilt).2 =
    ["5.6.1f1 : " +:+ exe56;
     "2019.4.1f1 : C:\Program Files\Unity2019.4.1f1\Editor\Unity.exe"].
Proof. vm_compute. reflexivity. Qed.

(** ** The walk under the callback of deepFind *)

Lemma walk_Dir {S} (fn : WalkFunc S) path name entries st :
  walk fn path (Dir name entries) st =
    match fn path (Some (mkInfo name true)) None st with
    | (Some e1, st1) => (Some e1, st1)
    | (None, st1) => walk_entries fn path entries st1
    end.
Proof.
  simpl. destruct (fn _ _ _ _) as [[e1|] st1]; [done|].
  revert st1. induction entries as [|c es IH]; intros st1; [done|].
  simpl. destruct (walk fn _ c st1) as [[e|] st']; [|apply IH].
  destruct (negb _ || negb _); [done|apply IH].
Qed.

Lemma Count_app s t c :
  strings_Count (s +:+ t) c = strings_Count s c + strings_Count t c.
Proof. induction s as [|a s IH]; simpl; [done|]. rewrite IH. lia. Qed.


Lemma Count_FromSlash s :
  strings_Count (FromSlash s) Separator =
    strings_Count s Separator + strings_Count s Slash.
Proof.
  induction s as [|a s IH]; simpl; [done|]. rewrite IH.
  destruct (Ascii.eqb_spec a Slash) as [->|Hs]; simpl.
  - lia.
  - destruct (Ascii.eqb a Separator); lia.
Qed.

Lemma FromSlash_app s t : FromSlash (s +:+ t) = FromSlash s +:+ FromSlash t.
Proof. induction s as [|a s IH]; simpl; [done|]. by rewrite IH. Qed.

Lemma append_nil_l (s : string) : "" +:+ s = s.
Proof. done. Qed.

Lemma append_cons a (s t : string) : String a s +:+ t = String a (s +:+ t).
Proof. done. Qed.

Lemma append_nil_r (s : string) : s +:+ "" = s.
Proof. induction s as [|a s IH]; [done|]. by rewrite append_cons, IH. Qed.

Lemma append_assoc (s t u : string) : (s +:+ t) +:+ u = s +:+ t +:+ u.
Proof. induction s as [|a s IH]; [done|]. by rewrite !append_cons, IH. Qed.

(** ** Clean and Join on plain paths *)

Lemma IsPathSeparator_spec c :
  IsPathSeparator c = true ↔ c = Separator ∨ c = Slash.
Proof.
  unfold IsPathSeparator. rewrite orb_true_iff.
  by rewrite !Ascii.eqb_eq.
Qed.

Lemma Count_0_cons c s sep :
  strings_Count (String c s) sep = 0 ↔ c ≠ sep ∧ strings_Count s sep = 0.
Proof.
  simpl. destruct (Ascii.eqb_spec c sep) as [->|Hc]; split.
  - lia.
  - by intros [? _].
  - intros ?. split; [done|lia].
  - by intros [_ ->].
Qed.

Lemma no_separator_cons c s :
  strings_Count (String c s) Separator = 0 →
  strings_Count (String c s) Slash = 0 →
  IsPathSeparator c = false ∧
  strings_Count s Separator = 0 ∧ strings_Count s Slash = 0.
Proof.
  intros [H1 ?]%Count_0_cons [H2 ?]%Count_0_cons. split; [|done].
  apply not_true_is_false. rewrite IsPathSeparator_spec. tauto.
Qed.

Lemma split_path_nonempty s : split_path s ≠ [].
Proof.
  destruct s as [|a s]; [done|]. simpl.
  destruct (split_path s); [done|]. by destruct (IsPathSeparator a).
Qed.

Lemma split_path_cons a s :
  split_path (String a s) =
    if IsPathSeparator a then "" :: split_path s
    else match split_path s with
         | h :: t => String a h :: t
         | [] => [String a ""]
         end.
Proof.
  simpl. destruct (split_path s) eqn:Hs; [by apply split_path_nonempty in Hs|].
  done.
Qed.

Lemma split_path_element name :
  strings_Count name Separator = 0 → strings_Count name Slash = 0 →
  split_path name = [name].
Proof.
  induction name as [|c name IH]; [done|]. intros H1 H2.
  destruct (no_separator_cons _ _ H1 H2) as (Hc & H1' & H2').
  by rewrite split_path_cons, Hc, IH.
Qed.

Lemma split_path_snoc s c name :
  IsPathSeparator c = true →
  strings_Count name Separator = 0 → strings_Count name Slash = 0 →
  split_path (s +:+ String c name) = split_path s ++ [name].
Proof.
  intros Hc H1 H2. induction s as [|a s IH].
  - change ("" +:+ String c name) with (String c name).
    rewrite split_path_cons, Hc. simpl. by rewrite split_path_element.
  - change (String a s +:+ String c name)
      with (String a (s +:+ String c name)).
    rewrite !split_path_cons, IH.
    destruct (IsPathSeparator a); [done|].
    destruct (split_path s) eqn:Hs; [by apply split_path_nonempty in Hs|done].
Qed.

Lemma concat_cons sep x y l :
  String.concat sep (x :: y :: l) = x +:+ sep +:+ String.concat sep (y :: l).
Proof. done. Qed.

Lemma concat_split_path s :
  String.concat (String Separator "") (split_path s) = FromSlash s.
Proof.
  induction s as [|a s IH]; [done|].
  rewrite split_path_cons.
  destruct (split_path s) as [|h t] eqn:Hs; [by apply split_path_nonempty in Hs|].
  destruct (IsPathSeparator a) eqn:Ha.
  - rewrite concat_cons, IH. simpl.
    apply IsPathSeparator_spec in Ha as [->| ->]; done.
  - assert (Ascii.eqb a Slash = false) as Hsl.
    { unfold IsPathSeparator in Ha. by apply orb_false_iff in Ha as [_ ?]. }
    simpl FromSlash. rewrite Hsl, <- IH.
    destruct t; [done|]. by rewrite !concat_cons.
Qed.

Lemma split_path_FromSlash s : split_path (FromSlash s) = split_path s.
Proof.
  induction s as [|a s IH]; [done|].
  simpl FromSlash. rewrite !split_path_cons, IH.
  destruct (Ascii.eqb_spec a Slash) as [->|Ha]; [done|done].
Qed.

Lemma Count_FromSlash_other s c :
  c ≠ Separator → c ≠ Slash →
  strings_Count (FromSlash s) c = strings_Count s c.
Proof.
  intros H1 H2. induction s as [|a s IH]; [done|]. simpl. rewrite IH.
  destruct (Ascii.eqb_spec a Slash) as [->|Ha]; [|done].
  destruct (Ascii.eqb_spec Separator c), (Ascii.eqb_spec Slash c); done.
Qed.

Lemma FromSlash_element name :
  strings_Count name Slash = 0 → FromSlash name = name.
Proof.
  induction name as [|c name IH]; [done|].
  intros [Hc H]%Count_0_cons. simpl. rewrite IH by done.
  by destruct (Ascii.eqb_spec c Slash).
Qed.

Lemma clean_components_proper rooted es :
  ∀ stack, forallb proper_element es = true →
           clean_components rooted stack es = rev stack ++ es.
Proof.
  induction es as [|e es IH]; intros stack; simpl.
  - by rewrite app_nil_r.
  - intros [He Hes]%andb_true_iff.
    unfold proper_element in He. apply negb_true_iff, bool_decide_eq_false in He.
    rewrite decide_False by tauto. rewrite decide_False by tauto.
    rewrite IH by done. simpl. by rewrite <- app_assoc.
Qed.

Lemma wf_name_proper name : wf_name name → proper_element name = true.
Proof.
  intros (H0 & H1 & H2 & _). unfold proper_element.
  apply negb_true_iff, bool_decide_eq_false. tauto.
Qed.

(** The rest of a plain path: where it starts and how it ends. *)
Lemma plain_rest_inv rest :
  plain_rest rest = true →
  strings_Count rest ":" = 0 ∧ strings_Count rest "?" = 0 ∧
  ∃ c rest', rest = String c rest' ∧
    ∃ es, forallb proper_element es = true ∧
          split_path rest = (if IsPathSeparator c then [""] else []) ++ es ∧
          (IsPathSeparator c = true → es ≠ []).
Proof.
  unfold plain_rest. intros [[Hc Hq]%andb_true_iff Hes]%andb_true_iff.
  apply Nat.eqb_eq in Hc, Hq. do 2 (split; [done|]).
  destruct rest as [|c rest']; [done|]. exists c, rest'. split; [done|].
  rewrite split_path_cons in Hes |- *.
  destruct (IsPathSeparator c) eqn:Hsep.
  - destruct (split_path rest') as [|e es] eqn:Hs;
      [by apply split_path_nonempty in Hs|].
    exists (e :: es). done.
  - destruct (split_path rest') as [|h t] eqn:Hs;
      [by apply split_path_nonempty in Hs|].
    exists (String c h :: t). done.
Qed.

Lemma first_element_no_colon out :
  strings_Count out ":" = 0 → first_element_has_colon out = false.
Proof.
  induction out as [|c out IH]; [done|]. intros [Hc H]%Count_0_cons.
  simpl. destruct (IsPathSeparator c); [done|]. rewrite IH by done.
  by destruct (Ascii.eqb_spec c ":").
Qed.

Lemma postClean_plain volLen rest out :
  strings_Count out ":" = 0 → strings_Count out "?" = 0 →
  postClean volLen rest out = out.
Proof.
  intros Hc Hq. unfold postClean.
  destruct (negb (volLen =? 0) || String.prefix out rest); [done|].
  rewrite first_element_no_colon by done.
  destruct out as [|c0 out']; [done|].
  destruct (IsPathSeparator c0); [|done]. simpl.
  apply Count_0_cons in Hq as [_ Hq].
  destruct out' as [|c1 out'']; [done|].
  apply Count_0_cons in Hq as [Hq _].
  change (String.prefix "??" (String c1 out''))
    with (if ascii_dec "?" c1 then String.prefix "?" out'' else false).
  by destruct (ascii_dec "?" c1) as [<-|].
Qed.

(** The elements of the rest of a plain path are what [Clean] leaves of
    it. *)
Lemma clean_rest_plain rest :
  plain_rest rest = true →
  ∃ c rest', rest = String c rest' ∧
    (if IsPathSeparator c then String Separator "" else "") +:+
      String.concat (String Separator "")
        (clean_components (IsPathSeparator c) [] (split_path rest)) =
    FromSlash rest.
Proof.
  intros (_ & _ & c & rest' & -> & es & Hes & Hsplit & Hne)%plain_rest_inv.
  exists c, rest'. split; [done|].
  rewrite <- concat_split_path, Hsplit.
  destruct (IsPathSeparator c) eqn:Hsep; simpl app.
  - destruct es as [|e es]; [by destruct Hne|].
    assert (clean_components true [] ("" :: e :: es) =
              clean_components true [] (e :: es)) as -> by done.
    by rewrite clean_components_proper.
  - by rewrite clean_components_proper.
Qed.

Lemma FromSlash_idem s : FromSlash (FromSlash s) = FromSlash s.
Proof.
  induction s as [|c s IH]; [done|]. simpl. rewrite IH.
  destruct (Ascii.eqb c Slash) eqn:Hc; [done|]. by rewrite Hc.
Qed.

Lemma FromSlash_nonempty s : s ≠ "" → FromSlash s ≠ "".
Proof. by destruct s. Qed.

Lemma toUpper_question c : Ascii.eqb "?" (toUpper c) = true → c = "?"%char.
Proof.
  destruct c as [[] [] [] [] [] [] [] []]; vm_compute; congruence.
Qed.

Lemma volumeNameLen_plain_rest p :
  byte_is 1 (λ c, Ascii.eqb c ":") p = false →
  plain_rest p = true → volumeNameLen p = 0.
Proof.
  intros Hdrive (_ & Hq & c & rest' & -> & es & Hes & Hsplit & Hne)%plain_rest_inv.
  unfold volumeNameLen. rewrite Hdrive.
  change (byte_is 0 IsPathSeparator (String c rest')) with (IsPathSeparator c).
  destruct (IsPathSeparator c) eqn:Hsep; [|done]. simpl negb. cbv iota.
  specialize (Hne eq_refl).
  rewrite split_path_cons, Hsep in Hsplit. simpl in Hsplit.
  injection Hsplit as Hsplit.
  destruct rest' as [|c1 rest'']; [by subst es|].
  assert (IsPathSeparator c1 = false) as Hc1.
  { destruct (IsPathSeparator c1) eqn:Hs1; [|done].
    rewrite split_path_cons, Hs1 in Hsplit. subst es. done. }
  assert (c1 ≠ "?"%char) as Hq1.
  { apply Count_0_cons in Hq as [_ Hq]. by apply Count_0_cons in Hq as [? _]. }
  assert (pathHasPrefixFold (String c (String c1 rest'')) "\\.\UNC" = false) as ->.
  { simpl. by rewrite Hsep, Hc1. }
  assert (pathHasPrefixFold (String c (String c1 rest'')) "\\." = false) as ->.
  { simpl. by rewrite Hsep, Hc1. }
  assert (pathHasPrefixFold (String c (String c1 rest'')) "\\?" = false) as ->.
  { simpl. by rewrite Hsep, Hc1. }
  assert (pathHasPrefixFold (String c (String c1 rest'')) "\??" = false) as ->.
  { change (pathHasPrefixFold (String c (String c1 rest'')) "\??")
      with (IsPathSeparator c &&
            (Ascii.eqb "?" (toUpper c1) && pathHasPrefixFold rest'' "?")).
    destruct (Ascii.eqb "?" (toUpper c1)) eqn:Hu;
      [by apply toUpper_question in Hu|]. by rewrite andb_false_r. }
  simpl orb. cbv iota.
  change (byte_is 1 IsPathSeparator (String c (String c1 rest'')))
    with (IsPathSeparator c1).
  by rewrite Hc1.
Qed.

Lemma filepath_Clean_plain_rest p :
  byte_is 1 (λ c, Ascii.eqb c ":") p = false →
  plain_rest p = true → filepath_Clean p = FromSlash p.
Proof.
  intros Hdrive Hp. unfold filepath_Clean.
  rewrite (volumeNameLen_plain_rest p Hdrive Hp).
  change (skip 0 p) with p.
  destruct (clean_rest_plain p Hp) as (c & rest' & -> & Hout).
  cbv zeta. rewrite Hout.
  destruct (plain_rest_inv _ Hp) as (Hc & Hq & _).
  rewrite decide_False by (by apply FromSlash_nonempty).
  rewrite postClean_plain by (by rewrite Count_FromSlash_other).
  change (substring 0 0 (String c rest')) with "".
  by rewrite append_nil_l, FromSlash_idem.
Qed.

Lemma byte_is_drive p :
  byte_is 1 (λ c, Ascii.eqb c ":") p = true →
  ∃ d rest, p = String d (String ":" rest).
Proof.
  destruct p as [|d [|c rest]]; [done..|]. unfold byte_is. simpl.
  intros ->%Ascii.eqb_eq. by eexists _, _.
Qed.

(** On a plain path [Clean] only turns the slashes. *)
Lemma filepath_Clean_plain p :
  plain_path p = true → filepath_Clean p = FromSlash p.
Proof.
  unfold plain_path.
  destruct (byte_is 1 (λ c, Ascii.eqb c ":") p) eqn:Hdrive;
    [|by apply filepath_Clean_plain_rest].
  destruct (byte_is_drive p Hdrive) as (d & rest & ->).
  change (skip 2 (String d (String ":" rest))) with rest.
  intros [_ Hp]%andb_true_iff.
  unfold filepath_Clean, volumeNameLen. rewrite Hdrive.
  change (skip 2 (String d (String ":" rest))) with rest.
  destruct (clean_rest_plain rest Hp) as (c & rest' & -> & Hout).
  cbv zeta. rewrite Hout.
  destruct (plain_rest_inv _ Hp) as (Hc & Hq & _).
  rewrite decide_False by (by apply FromSlash_nonempty).
  rewrite postClean_plain by (by rewrite Count_FromSlash_other).
  change (substring 0 2 (String d (String ":" (String c rest'))))
    with (String d (String ":" "")).
  rewrite FromSlash_app, FromSlash_idem.
  change (String d (String ":" (String c rest')))
    with (String d (String ":" "") +:+ String c rest').
  by rewrite FromSlash_app.
Qed.

Lemma last_byte_cons c s :
  last_byte (String c s) = match s with "" => Some c | _ => last_byte s end.
Proof. by destruct s. Qed.

Lemma last_byte_Some c s : ∃ x, last_byte (String c s) = Some x.
Proof.
  revert c. induction s as [|a s IH]; intros c; [by exists c|].
  rewrite last_byte_cons. apply IH.
Qed.

Lemma last_byte_Count s c : last_byte s = Some c → 0 < strings_Count s c.
Proof.
  induction s as [|a s IH]; [done|]. rewrite last_byte_cons.
  destruct s as [|b s].
  - intros [= ->]. simpl. rewrite Ascii.eqb_refl. lia.
  - intros H. specialize (IH H). simpl in *. lia.
Qed.

Lemma last_byte_snoc s c : last_byte s = Some c → ∃ s', s = s' +:+ String c "".
Proof.
  induction s as [|a s IH]; [done|]. rewrite last_byte_cons.
  destruct s as [|b s].
  - intros [= ->]. by exists "".
  - intros [s' Hs']%IH. exists (String a s'). by rewrite append_cons, <- Hs'.
Qed.

Lemma forallb_last {A} (f : A → bool) l x :
  forallb f l = true → last l = Some x → f x = true.
Proof.
  intros Hall Hlast. apply last_Some in Hlast as [l' ->].
  rewrite forallb_app in Hall. apply andb_true_iff in Hall as [_ Hx].
  simpl in Hx. by apply andb_true_iff in Hx as [? _].
Qed.

(** A plain path ends in a byte of an element. *)
Lemma plain_rest_last rest c :
  plain_rest rest = true → last_byte rest = Some c →
  IsPathSeparator c = false ∧ Ascii.eqb c ":" = false.
Proof.
  intros Hp Hlast.
  destruct (plain_rest_inv _ Hp) as (Hc & _ & c0 & rest' & Hr & es & Hes & Hsplit & Hne).
  split.
  - destruct (IsPathSeparator c) eqn:Hsep; [|done].
    destruct (last_byte_snoc _ _ Hlast) as [s' Hs'].
    rewrite Hs', (split_path_snoc s' c "") in Hsplit by done.
    assert (last es = Some "") as Hl.
    { destruct (IsPathSeparator c0).
      - destruct es as [|e es]; [by destruct Hne|].
        simpl in Hsplit. rewrite <- (last_cons_cons "" e es), <- Hsplit.
        apply last_snoc.
      - simpl in Hsplit. rewrite <- Hsplit. apply last_snoc. }
    by apply (forallb_last _ _ _ Hes) in Hl.
  - apply Ascii.eqb_neq. intros ->. apply last_byte_Count in Hlast. lia.
Qed.

Lemma plain_rest_snoc rest c name :
  IsPathSeparator c = true →
  plain_rest rest = true → wf_name name →
  plain_rest (rest +:+ String c name) = true.
Proof.
  intros Hsepc Hp Hn. pose proof (wf_name_proper name Hn) as Hprop.
  destruct Hn as (Hn0 & Hn1 & Hn2 & Hsep & Hsl & Hc & Hq).
  destruct (plain_rest_inv _ Hp) as (Hrc & Hrq & c0 & rest' & Hr & es & Hes & Hsplit & Hne).
  unfold plain_rest.
  assert (strings_Count (String c name) ":" = 0 ∧
          strings_Count (String c name) "?" = 0) as [Hc' Hq'].
  { apply IsPathSeparator_spec in Hsepc as [-> | ->]; by rewrite !Count_0_cons. }
  rewrite !Count_app, Hrc, Hrq, Hc', Hq'.
  change ((0 + 0 =? 0) && (0 + 0 =? 0)) with true.
  rewrite (split_path_snoc rest c name) by done. rewrite Hsplit.
  assert (forallb proper_element (es ++ [name]) = true) as Hall.
  { rewrite forallb_app, Hes. simpl. by rewrite Hprop. }
  destruct (IsPathSeparator c0).
  - destruct es as [|e es]; [by destruct Hne|]. exact Hall.
  - destruct es as [|e es].
    + simpl. destruct name; [done|]. by rewrite Hprop.
    + destruct e as [|a e]; [done|]. exact Hall.
Qed.

Lemma plain_rest_FromSlash rest :
  plain_rest rest = true → plain_rest (FromSlash rest) = true.
Proof.
  unfold plain_rest.
  by rewrite split_path_FromSlash, !Count_FromSlash_other.
Qed.

Lemma byte_is_app i f p t :
  i < String.length p → byte_is i f (p +:+ t) = byte_is i f p.
Proof.
  unfold byte_is. revert p. induction i as [|i IH]; intros [|c p] Hi; simpl in *;
    try lia; [done|]. apply IH. lia.
Qed.

Lemma skip_app_lt i p t :
  i ≤ String.length p → skip i (p +:+ t) = skip i p +:+ t.
Proof.
  revert p. induction i as [|i IH]; intros [|c p] Hi; simpl in *; try lia; try done.
  apply IH. lia.
Qed.

Lemma plain_path_snoc p c name :
  IsPathSeparator c = true →
  plain_path p = true → wf_name name →
  plain_path (p +:+ String c name) = true.
Proof.
  unfold plain_path. intros Hc Hp Hn.
  assert (Ascii.eqb c ":" = false) as Hcolon.
  { by apply IsPathSeparator_spec in Hc as [-> | ->]. }
  destruct (byte_is 1 (λ c, Ascii.eqb c ":") p) eqn:Hdrive.
  - destruct (byte_is_drive p Hdrive) as (d & rest & ->).
    rewrite !byte_is_app by (simpl; lia). rewrite Hdrive.
    apply andb_true_iff in Hp as [-> Hp].
    rewrite skip_app_lt by (simpl; lia). by apply plain_rest_snoc.
  - assert (byte_is 1 (λ c, Ascii.eqb c ":") (p +:+ String c name) = false)
      as ->; [|by apply plain_rest_snoc].
    destruct p as [|d [|c' p]]; [done|done|].
    by rewrite byte_is_app by (simpl; lia).
Qed.

Lemma is_letter_not_slash d : is_letter d = true → Ascii.eqb d Slash = false.
Proof. destruct (Ascii.eqb_spec d Slash) as [->|]; [by vm_compute|done]. Qed.

Lemma plain_path_FromSlash p :
  plain_path p = true → plain_path (FromSlash p) = true.
Proof.
  unfold plain_path.
  destruct (byte_is 1 (λ c, Ascii.eqb c ":") p) eqn:Hdrive.
  - destruct (byte_is_drive p Hdrive) as (d & rest & ->).
    intros [Hd Hp]%andb_true_iff.
    change (byte_is 0 is_letter (String d (String ":" rest))) with (is_letter d) in Hd.
    simpl FromSlash. rewrite (is_letter_not_slash d Hd).
    change (Ascii.eqb ":" Slash) with false. cbv iota.
    change (byte_is 1 (λ c, Ascii.eqb c ":") (String d (String ":" (FromSlash rest))))
      with true. cbv iota.
    change (byte_is 0 is_letter (String d (String ":" (FromSlash rest))))
      with (is_letter d). rewrite Hd.
    by apply plain_rest_FromSlash.
  - intros Hp.
    assert (byte_is 1 (λ c, Ascii.eqb c ":") (FromSlash p) = false) as ->;
      [|by apply plain_rest_FromSlash].
    destruct p as [|d [|c p]]; [done|done|].
    unfold byte_is in *. simpl in *.
    destruct (Ascii.eqb_spec c Slash) as [->|]; done.
Qed.

(** Under a plain path, an entry is visited under the path with its
    slashes turned, a separator and the name of the entry. *)
Lemma filepath_Join_plain p name :
  plain_path p = true → wf_name name →
  filepath_Join p name = FromSlash p +:+ String Separator name.
Proof.
  intros Hp Hn. unfold filepath_Join.
  assert (∃ c, last_byte p = Some c ∧ IsPathSeparator c = false ∧
               Ascii.eqb c ":" = false) as (c & -> & -> & ->).
  { unfold plain_path in Hp.
    destruct (byte_is 1 (λ c, Ascii.eqb c ":") p) eqn:Hdrive.
    - destruct (byte_is_drive p Hdrive) as (d & rest & ->).
      apply andb_true_iff in Hp as [_ Hp].
      change (skip 2 (String d (String ":" rest))) with rest in Hp.
      destruct (plain_rest_inv _ Hp) as (_ & _ & c0 & rest' & -> & _).
      rewrite !(last_byte_cons _ (String _ _)).
      destruct (last_byte_Some c0 rest') as [c Hl].
      exists c. split; [done|]. by apply (plain_rest_last (String c0 rest')).
    - destruct (plain_rest_inv _ Hp) as (_ & _ & c0 & rest' & -> & _).
      destruct (last_byte_Some c0 rest') as [c Hl].
      exists c. split; [done|]. by apply (plain_rest_last (String c0 rest')). }
  rewrite filepath_Clean_plain by (by apply plain_path_snoc).
  rewrite FromSlash_app. simpl FromSlash.
  change (Ascii.eqb Separator Slash) with false. cbv iota.
  destruct Hn as (_ & _ & _ & _ & Hsl & _). by rewrite (FromSlash_element name).
Qed.

Lemma plain_path_Join p name :
  plain_path p = true → wf_name name →
  plain_path (filepath_Join p name) = true.
Proof.
  intros Hp Hn. rewrite filepath_Join_plain by done.
  by apply plain_path_snoc; [|apply plain_path_FromSlash|].
Qed.

(** Under one plain directory, every entry is one separator deeper. *)
Lemma depth_Join path name :
  plain_path path = true → wf_name name →
  depth (filepath_Join path name) = S (depth (FromSlash path)).
Proof.
  intros Hp Hn. rewrite filepath_Join_plain by done. unfold depth.
  rewrite Count_app.
  change (strings_Count (String Separator name) Separator)
    with (1 + strings_Count name Separator).
  destruct Hn as (_ & _ & _ & -> & _). lia.
Qed.

Lemma depth_FromSlash_ge path : depth path ≤ depth (FromSlash path).
Proof. unfold depth. rewrite Count_FromSlash. lia. Qed.

Lemma append_nonempty_r (s t : string) : t ≠ "" → s +:+ t ≠ "".
Proof. destruct s; [done|]. by rewrite append_cons. Qed.

Lemma postClean_nonempty volLen rest out :
  out ≠ "" → postClean volLen rest out ≠ "".
Proof.
  intros Hout. unfold postClean.
  destruct (negb (volLen =? 0) || String.prefix out rest); [done|].
  destruct (first_element_has_colon out); [done|].
  destruct out as [|c0 out']; [done|].
  by destruct (IsPathSeparator c0 && String.prefix "??" out').
Qed.

(** [Clean] never returns the empty string. *)
Lemma filepath_Clean_nonempty p : filepath_Clean p ≠ "".
Proof.
  unfold filepath_Clean.
  destruct (skip (volumeNameLen p) p) as [|c rest] eqn:Hrest.
  - destruct ((1 <? volumeNameLen p) && byte_is 0 IsPathSeparator p &&
              byte_is 1 IsPathSeparator p) eqn:Hunc.
    + apply FromSlash_nonempty. intros ->. by rewrite !andb_false_r in Hunc.
    + by apply append_nonempty_r.
  - cbv zeta. apply FromSlash_nonempty, append_nonempty_r, postClean_nonempty.
    by case_decide.
Qed.

Lemma filepath_Join_nonempty a b : a ≠ "" → filepath_Join a b ≠ "".
Proof.
  intros Ha. unfold filepath_Join. destruct a as [|c a]; [done|].
  destruct (last_byte_Some c a) as [x ->]. apply filepath_Clean_nonempty.
Qed.

Lemma deepFind_fn_file path name st :
  deepFind_fn path (Some (mkInfo name false)) None st =
    if decide (depthCutoff < depth path) then (Some SkipDir, st)
    else if String.eqb name "Unity.exe" then (Some dummyError, path)
         else (None, st).
Proof. done. Qed.

Lemma deepFind_fn_dir path name st :
  deepFind_fn path (Some (mkInfo name true)) None st =
    if decide (depthCutoff < depth path) then (Some SkipDir, st) else (None, st).
Proof. unfold deepFind_fn, depth. by case_decide. Qed.

Lemma entries_answer_cons path c es st r :
  entries_answer path es st r → entries_answer path (c :: es) st r.
Proof.
  unfold entries_answer. destruct r as [[[| |msg]|] st']; simpl; [| | |done].
  - intros [-> (c' & Hin & H)]. split; [done|]. exists c'. split; [by right|done].
  - intros (c' & Hin & H). exists c'. split; [by right|done].
  - intros [-> (c' & Hin & H)]. split; [done|]. exists c'. split; [by right|done].
Qed.

Lemma walk_entries_answer path es :
  Forall (λ c, ∀ path st, walk_answer path c st (walk deepFind_fn path c st)) es →
  ∀ st, entries_answer path es st (walk_entries deepFind_fn path es st).
Proof.
  induction 1 as [|c es Hc _ IH]; intros st; [done|].
  simpl. specialize (Hc (filepath_Join path (Name (stat c))) st).
  destruct (walk deepFind_fn _ c st) as [[e|] st1] eqn:Hw.
  - unfold walk_answer in Hc. simpl in Hc.
    destruct e as [| |msg]; simpl.
    + destruct Hc as [-> Hd]. destruct (IsDir (stat c)) eqn:Hdir; simpl.
      * by apply entries_answer_cons.
      * split; [done|]. exists c. split; [left|]; auto.
    + rewrite orb_true_r. exists c. split; [left|done].
    + rewrite orb_true_r. destruct Hc as [-> Hu]. split; [done|].
      exists c. split; [left|done].
  - unfold walk_answer in Hc. simpl in Hc. subst st1.
    by apply entries_answer_cons.
Qed.

Lemma walk_answers n : ∀ path st, walk_answer path n st (walk deepFind_fn path n st).
Proof.
  induction n as [name|name entries IH|name err] using node_nested_ind;
    intros path st.
  - change (walk deepFind_fn path (File name) st)
      with (deepFind_fn path (Some (mkInfo name false)) None st).
    rewrite deepFind_fn_file. unfold walk_answer.
    case_decide; simpl; [done|].
    destruct (String.eqb_spec name "Unity.exe") as [->|]; simpl; [|done].
    constructor. lia.
  - rewrite walk_Dir, deepFind_fn_dir.
    case_decide; simpl; [done|].
    pose proof (walk_entries_answer path entries IH st) as He.
    unfold entries_answer, walk_answer in *.
    destruct (walk_entries deepFind_fn path entries st) as [[[]|] ?]; simpl in *.
    + destruct He as [-> _]. done.
    + destruct He as (c & Hin & Ht). econstructor; [lia|done..].
    + destruct He as [-> (c & Hin & Hu)]. split; [done|]. by econstructor.
    + done.
  - simpl. split; [done|]. constructor.
Qed.

Lemma target_at_depth path n p : target_at path n p → depth path ≤ depthCutoff.
Proof. by destruct 1. Qed.

Lemma target_at_found_depth path n p : target_at path n p → depth p ≤ depthCutoff.
Proof. induction 1; done. Qed.

(** A node deeper than the cutoff: the callback answers before anything
    below it is looked at. *)
Lemma walk_pruned path n st :
  depthCutoff < depth path →
  walk deepFind_fn path n st =
    match n with
    | NoList _ e => (Some (IOError e), st)
    | _ => (Some SkipDir, st)
    end.
Proof.
  intros Hd. destruct n as [name|name entries|name err]; [| |done].
  - change (walk deepFind_fn path (File name) st)
      with (deepFind_fn path (Some (mkInfo name false)) None st).
    rewrite deepFind_fn_file. by rewrite decide_True.
  - rewrite walk_Dir, deepFind_fn_dir. by rewrite decide_True.
Qed.

(** ** The order of the visits *)

Lemma visited_Dir path name entries :
  visited path (Dir name entries) =
    (path, Dir name entries) ::
    (if decide (depthCutoff < depth path) then []
     else visited_entries path entries).
Proof.
  simpl. f_equal. case_decide; [done|].
  induction entries as [|c es IH]; [done|]. simpl. by rewrite IH.
Qed.

Lemma first_stop_cons pn l :
  first_stop (pn :: l) =
    match stop_of pn with Some s => Some s | None => first_stop l end.
Proof. unfold first_stop. simpl. by destruct (stop_of pn). Qed.

Lemma first_stop_app l1 l2 :
  first_stop (l1 ++ l2) =
    match first_stop l1 with Some s => Some s | None => first_stop l2 end.
Proof.
  induction l1 as [|pn l1 IH]; [done|].
  rewrite <- app_comm_cons, !first_stop_cons. by destruct (stop_of pn).
Qed.

Lemma walk_entries_cons {S} (fn : WalkFunc S) path c es st :
  walk_entries fn path (c :: es) st =
    match walk fn (filepath_Join path (Name (stat c))) c st with
    | (Some e, st') =>
        if negb (IsDir (stat c)) || negb (is_SkipDir e)
        then (Some e, st') else walk_entries fn path es st'
    | (None, st') => walk_entries fn path es st'
    end.
Proof. done. Qed.

Lemma visited_entries_cons path c es :
  visited_entries path (c :: es) =
    visited (filepath_Join path (Name (stat c))) c ++
    (if negb (IsDir (stat c)) &&
        bool_decide (depthCutoff < depth (filepath_Join path (Name (stat c))))
     then [] else visited_entries path es).
Proof. done. Qed.

Lemma walk_entries_visited path es :
  Forall (λ c, ∀ path st,
            stop_answer (first_stop (visited path c)) st
              (walk deepFind_fn path c st)) es →
  ∀ st, stop_answer (first_stop (visited_entries path es)) st
          (walk_entries deepFind_fn path es st).
Proof.
  induction 1 as [|c es Hc _ IH]; intros st; [by left|].
  rewrite walk_entries_cons, visited_entries_cons, first_stop_app.
  set (pc := filepath_Join path (Name (stat c))).
  specialize (Hc pc st).
  destruct c as [name|name entries|name err].
  - clear Hc.
    change (walk deepFind_fn pc (File name) st)
      with (deepFind_fn pc (Some (mkInfo name false)) None st).
    rewrite deepFind_fn_file.
    change (visited pc (File name)) with [(pc, File name)].
    rewrite first_stop_cons.
    change (stop_of (pc, File name))
      with (if String.eqb name "Unity.exe" && bool_decide (depth pc ≤ depthCutoff)
            then Some (Found pc) else None).
    change (IsDir (stat (File name))) with false.
    destruct (decide (depthCutoff < depth pc)) as [Hd|Hd].
    + rewrite bool_decide_eq_false_2 by lia.
      rewrite bool_decide_eq_true_2 by done. rewrite andb_false_r. by right.
    + rewrite bool_decide_eq_true_2 by lia.
      rewrite bool_decide_eq_false_2 by done. rewrite andb_true_r.
      destruct (String.eqb name "Unity.exe"); [done|]. apply IH.
  - change (IsDir (stat (Dir name entries))) with true.
    destruct (first_stop (visited pc (Dir name entries))) as [[p|e]|];
      unfold stop_answer in Hc.
    + by rewrite Hc.
    + by rewrite Hc.
    + destruct Hc as [-> | ->]; apply IH.
  - change (IsDir (stat (NoList name err))) with true.
    destruct (first_stop (visited pc (NoList name err))) as [[p|e]|];
      unfold stop_answer in Hc.
    + by rewrite Hc.
    + by rewrite Hc.
    + destruct Hc as [-> | ->]; apply IH.
Qed.

(** The walk ends at the first stop among its visits, and answers nil or
    [SkipDir] when there is none. *)
Lemma walk_visited n :
  ∀ path st, stop_answer (first_stop (visited path n)) st
               (walk deepFind_fn path n st).
Proof.
  induction n as [name|name entries IH|name err] using node_nested_ind;
    intros path st.
  - change (walk deepFind_fn path (File name) st)
      with (deepFind_fn path (Some (mkInfo name false)) None st).
    rewrite deepFind_fn_file. simpl visited. rewrite first_stop_cons.
    unfold stop_of. simpl.
    destruct (decide (depthCutoff < depth path)) as [Hd|Hd].
    + rewrite bool_decide_eq_false_2 by lia. rewrite andb_false_r. by right.
    + rewrite bool_decide_eq_true_2 by lia. rewrite andb_true_r.
      destruct (String.eqb name "Unity.exe"); [done|]. by left.
  - rewrite walk_Dir, deepFind_fn_dir, visited_Dir, first_stop_cons.
    change (stop_of (path, Dir name entries)) with (@None stop).
    case_decide; [by right|]. by apply walk_entries_visited.
  - done.
Qed.

Lemma target_visited_entries path es c x :
  Forall (λ c, wf_name (Name (stat c))) es →
  plain_path path = true →
  c ∈ es →
  depth (filepath_Join path (Name (stat c))) ≤ depthCutoff →
  x ∈ visited (filepath_Join path (Name (stat c))) c →
  x ∈ visited_entries path es.
Proof.
  intros Hwf Hp Hin Hd Hx.
  assert (wf_name (Name (stat c))) as Hc by (by eapply Forall_forall in Hwf).
  induction Hwf as [|a es Ha _ IH]; [by apply elem_of_nil in Hin|].
  simpl. apply elem_of_app.
  apply elem_of_cons in Hin as [->|Hin]; [by left|]. right.
  rewrite (bool_decide_eq_false_2 (depthCutoff < _)), andb_false_r; [by apply IH|].
  rewrite (depth_Join path _ Hp Ha). rewrite (depth_Join path _ Hp Hc) in Hd. lia.
Qed.

(** Under a plain root and with entry names as a listing returns them,
    every target is among the visits. *)
Lemma target_visited path n p :
  target_at path n p → wf_tree n → plain_path path = true →
  (p, File "Unity.exe") ∈ visited path n.
Proof.
  induction 1 as [path Hd|path name entries c p Hd Hin Ht IH]; intros Hwf Hp.
  - by left.
  - rewrite visited_Dir, decide_False by lia. right.
    inversion Hwf as [| |? ? Hall]; subst.
    assert (wf_name (Name (stat c)) ∧ wf_tree c) as [Hcn Hwc]
      by (by eapply Forall_forall in Hall).
    apply (target_visited_entries path entries c); [|done|done| |].
    + eapply Forall_impl; [done|]. by intros ? [? _].
    + by eapply target_at_depth.
    + apply IH; [done|]. by apply plain_path_Join.
Qed.

(** The first stop of a list of visits that holds a stop. *)
Lemma first_stop_split l x s0 :
  x ∈ l → stop_of x = Some s0 →
  ∃ before y after s,
    l = before ++ y :: after ∧
    Forall (λ z, stop_of z = None) before ∧
    stop_of y = Some s ∧ first_stop l = Some s ∧ (y = x ∨ x ∈ after).
Proof.
  induction l as [|z l IH]; intros Hin Hx; [by apply elem_of_nil in Hin|].
  destruct (stop_of z) as [s|] eqn:Hz.
  - exists [], z, l, s. rewrite first_stop_cons, Hz.
    do 4 (split; [done|]).
    apply elem_of_cons in Hin as [->|?]; [by left|by right].
  - apply elem_of_cons in Hin as [->|Hin]; [congruence|].
    destruct (IH Hin Hx) as (before & y & after & s & -> & Hb & Hy & Hf & Hor).
    exists (z :: before), y, after, s. rewrite first_stop_cons, Hz.
    split; [done|]. split; [by constructor|]. done.
Qed.

(** ** getVersionKeys *)

Lemma partition_keys_filter it keys newKeys :
  partition_keys it keys newKeys =
    (keys ++ filter (λ k, ¬ is_new k) it, newKeys ++ filter is_new it).
Proof.
  revert keys newKeys. induction it as [|key it IH]; intros keys newKeys; simpl.
  - by rewrite !app_nil_r.
  - rewrite !filter_cons.
    destruct (strings_HasPrefix key "20") eqn:Hp; rewrite IH.
    + rewrite decide_False by (by intros []). rewrite decide_True by done.
      by rewrite <- app_assoc.
    + rewrite decide_True by (unfold is_new; by rewrite Hp).
      rewrite decide_False by (unfold is_new; by rewrite Hp).
      by rewrite <- app_assoc.
Qed.

Lemma getVersionKeys_range_filter it :
  getVersionKeys_range it =
    sort_Strings (filter (λ k, ¬ is_new k) it) ++ sort_Strings (filter is_new it).
Proof. unfold getVersionKeys_range. by rewrite partition_keys_filter. Qed.

Lemma sort_Strings_Permutation l : sort_Strings l ≡ₚ l.
Proof. apply merge_sort_Permutation. Qed.

Lemma sort_Strings_sorted l : StronglySorted String.le (sort_Strings l).
Proof. apply (StronglySorted_merge_sort _). Qed.

Lemma sort_Strings_proper l1 l2 : l1 ≡ₚ l2 → sort_Strings l1 = sort_Strings l2.
Proof.
  intros Hp. apply (StronglySorted_unique String.le); [apply sort_Strings_sorted..|].
  by rewrite !sort_Strings_Permutation.
Qed.

Lemma getVersionKeys_range_proper it1 it2 :
  it1 ≡ₚ it2 → getVersionKeys_range it1 = getVersionKeys_range it2.
Proof.
  intros Hit. rewrite !getVersionKeys_range_filter.
  f_equal; apply sort_Strings_proper; by rewrite Hit.
Qed.

Lemma elem_of_keys (m : gmap string string) key :
  key ∈ (map_to_list m).*1 ↔ is_Some (m !! key).
Proof.
  rewrite list_elem_of_fmap. split.
  - intros ([k v] & -> & Hin). apply elem_of_map_to_list in Hin. by exists v.
  - intros [v Hv]. exists (key, v). split; [done|]. by apply elem_of_map_to_list.
Qed.

(** C3.  Whatever the order in which the range loop yields the keys of
    the mapping, [getVersionKeys] returns one and the same list, which
    depends on the set of keys only: every key once, the keys that do not
    begin with 20 before those that do, and each of the two groups in
    ascending byte-wise order. *)
Theorem getVersionKeys_ordered (config : Config) (it : list string) :
  it ≡ₚ (map_to_list (Versions config)).*1 →
  getVersionKeys_range it = getVersionKeys config ∧
  (∀ config', dom (Versions config') = dom (Versions config) →
              getVersionKeys config' = getVersionKeys config) ∧
  NoDup (getVersionKeys config) ∧
  (∀ key, key ∈ getVersionKeys config ↔ is_Some (Versions config !! key)) ∧
  ∃ keys newKeys,
    getVersionKeys config = keys ++ newKeys ∧
    Forall (λ k, strings_HasPrefix k "20" = false) keys ∧
    Forall (λ k, strings_HasPrefix k "20" = true) newKeys ∧
    StronglySorted String.le keys ∧
    StronglySorted String.le newKeys.
Proof.
  intros Hit. split; [by apply getVersionKeys_range_proper|].
  split.
  { intros config' Hdom. apply getVersionKeys_range_proper.
    apply NoDup_Permutation; [apply NoDup_fst_map_to_list..|].
    intros key. by rewrite !elem_of_keys, <- !elem_of_dom, Hdom. }
  unfold getVersionKeys. rewrite !getVersionKeys_range_filter.
  set (ks := (map_to_list (Versions config)).*1) in *.
  assert (sort_Strings (filter (λ k, ¬ is_new k) ks) ++ sort_Strings (filter is_new ks)
            ≡ₚ ks) as Hperm.
  { rewrite !sort_Strings_Permutation, Permutation_app_comm.
    apply filter_app_complement. }
  split; [|split].
  - rewrite Hperm. apply NoDup_fst_map_to_list.
  - intros key. rewrite Hperm. apply elem_of_keys.
  - eexists _, _. split; [done|]. split; [|split; [|split]].
    + apply Forall_forall. intros k Hk. rewrite sort_Strings_Permutation in Hk.
      apply list_elem_of_filter in Hk as [Hk _]. unfold is_new in Hk.
      by destruct (strings_HasPrefix k "20").
    + apply Forall_forall. intros k Hk. rewrite sort_Strings_Permutation in Hk.
      by apply list_elem_of_filter in Hk as [Hk _].
    + apply sort_Strings_sorted.
    + apply sort_Strings_sorted.
Qed.

(** ** The version pattern *)

Lemma prefix_app (a s : string) :
  String.prefix a s = true ↔ ∃ t, s = a +:+ t.
Proof.
  revert s. induction a as [|c a IH]; intros s.
  - split; [by exists s|]. by destruct s.
  - destruct s as [|d s]; simpl.
    + split; [done|]. by intros [t ?].
    + destruct (ascii_dec c d) as [->|Hne].
      * rewrite IH. split; intros [t Ht]; exists t.
        -- by rewrite append_cons, <- Ht.
        -- rewrite append_cons in Ht. by simplify_eq.
      * split; [done|]. intros [t Ht]. rewrite append_cons in Ht. by simplify_eq.
Qed.

Lemma skip_app (a t : string) : skip (String.length a) (a +:+ t) = t.
Proof. induction a as [|c a IH]; [done|]. by rewrite append_cons. Qed.

Lemma substring_prefix n (s : string) :
  String.prefix (String.substring 0 n s) s = true.
Proof.
  revert s. induction n as [|n IH]; intros [|c s]; simpl; try done.
  by destruct (ascii_dec c c).
Qed.

Lemma substring_length n (s : string) :
  n ≤ String.length s → String.length (String.substring 0 n s) = n.
Proof.
  revert s. induction n as [|n IH]; intros [|c s]; simpl; try done; try lia.
  intros Hn. f_equal. apply IH. lia.
Qed.

Lemma line_rest_split s :
  ∃ post, s = line_rest s +:+ post ∧
          strings_Count (line_rest s) LF = 0 ∧
          (post = "" ∨ ∃ post', post = String LF post').
Proof.
  induction s as [|c s (post & Hs & Hc & Hp)]; simpl.
  - exists "". auto.
  - destruct (Ascii.eqb_spec c LF) as [->|Hne].
    + exists (String LF s). rewrite append_nil_l. eauto.
    + exists post. rewrite append_cons, <- Hs. simpl.
      apply Ascii.eqb_neq in Hne. rewrite Hne. auto.
Qed.

Lemma line_rest_unique cap post :
  strings_Count cap LF = 0 →
  (post = "" ∨ ∃ post', post = String LF post') →
  line_rest (cap +:+ post) = cap.
Proof.
  intros Hc Hp. induction cap as [|c cap IH].
  - rewrite append_nil_l. by destruct Hp as [->|[post' ->]].
  - rewrite append_cons. simpl in *.
    destruct (Ascii.eqb c LF); [done|]. by rewrite IH.
Qed.

Lemma line_rest_nil s :
  line_rest s = "" ↔ s = "" ∨ ∃ s', s = String LF s'.
Proof.
  destruct s as [|c s]; simpl; [by split; [left|]|].
  destruct (Ascii.eqb_spec c LF) as [->|Hne].
  - split; [right; by exists s|done].
  - split; [done|]. intros [?|[s' ?]]; by simplify_eq.
Qed.

Lemma match_here_nil data : match_here data = [] ↔ ¬ match_starts data.
Proof.
  unfold match_here, match_starts.
  destruct (String.prefix versionMarker data) eqn:Hp.
  - apply prefix_app in Hp as [t ->]. rewrite skip_app.
    destruct (line_rest t) as [|c cap] eqn:Hl.
    + split; [|done]. intros _ (c & rest & Ht & Hc).
      apply (inj (String.app _)) in Ht as ->.
      apply line_rest_nil in Hl as [?|[? ?]]; by simplify_eq.
    + split; [done|]. intros []. destruct t as [|d t]; [done|].
      exists d, t. split; [done|]. by intros ->.
  - split; [|done]. intros _ (c & rest & -> & _).
    assert (String.prefix versionMarker (versionMarker +:+ String c rest) = true)
      as Ht by (apply prefix_app; eauto).
    congruence.
Qed.

Lemma match_here_cons data s0 s :
  match_here data = s0 :: s →
  ∃ cap post, data = versionMarker +:+ cap +:+ post ∧
    s0 :: s = [versionMarker +:+ cap; cap] ∧ cap ≠ "" ∧
    strings_Count cap LF = 0 ∧ (post = "" ∨ ∃ post', post = String LF post').
Proof.
  unfold match_here. destruct (String.prefix versionMarker data) eqn:Hp; [|done].
  apply prefix_app in Hp as [t ->]. rewrite skip_app.
  destruct (line_rest_split t) as (post & Ht & Hc & Hpost).
  destruct (line_rest t) as [|c cap] eqn:Hl; [done|].
  intros [= <- <-]. exists (String c cap), post. by rewrite <- Ht.
Qed.

Lemma FindSubmatch_unfold data :
  versionPattern_FindSubmatch data =
    match match_here data with
    | [] => match data with
            | "" => []
            | String _ data' => versionPattern_FindSubmatch data'
            end
    | s => s
    end.
Proof. by destruct data. Qed.

Lemma FindSubmatch_leftmost data pre cap post :
  leftmost_match data pre cap post →
  versionPattern_FindSubmatch data = [versionMarker +:+ cap; cap].
Proof.
  intros (-> & Hne & Hc & Hpost & Hleft).
  induction pre as [|c pre IH].
  - rewrite append_nil_l.
    assert (match_here (versionMarker +:+ cap +:+ post)
            = [versionMarker +:+ cap; cap]) as Hm.
    { unfold match_here.
      rewrite (proj2 (prefix_app _ _)) by eauto.
      rewrite skip_app, line_rest_unique by done. by destruct cap. }
    by rewrite FindSubmatch_unfold, Hm.
  - rewrite append_cons.
    assert (match_here (String c (pre +:+ versionMarker +:+ cap +:+ post)) = [])
      as Hm.
    { apply match_here_nil. rewrite <- append_cons.
      by apply (Hleft "" (String c pre)). }
    rewrite FindSubmatch_unfold, Hm. apply IH. intros a b -> Hb.
    by apply (Hleft (String c a) b).
Qed.

Lemma FindSubmatch_nil data :
  versionPattern_FindSubmatch data = [] ↔ no_match data.
Proof.
  induction data as [|c data IH].
  - split; [|done]. intros _ a b Hab (d & rest & -> & _).
    destruct a; done.
  - rewrite FindSubmatch_unfold.
    destruct (match_here (String c data)) as [|s0 s] eqn:Hm.
    + apply match_here_nil in Hm. rewrite IH. split.
      * intros Hno [|a0 a] b Hab.
        -- rewrite append_nil_l in Hab. by subst b.
        -- rewrite append_cons in Hab. simplify_eq. by apply (Hno a b).
      * intros Hno a b ->. by apply (Hno (String c a) b).
    + split; [done|]. intros Hno.
      assert (¬ match_starts (String c data)) as Hn by (by apply (Hno "")).
      apply match_here_nil in Hn. congruence.
Qed.

Lemma FindSubmatch_cons data s0 s :
  versionPattern_FindSubmatch data = s0 :: s →
  ∃ pre cap post, leftmost_match data pre cap post ∧
                  s0 :: s = [versionMarker +:+ cap; cap].
Proof.
  induction data as [|c data IH].
  - done.
  - rewrite FindSubmatch_unfold.
    destruct (match_here (String c data)) as [|t0 t] eqn:Hm.
    + intros (pre & cap & post & (-> & Hne & Hc & Hpost & Hleft) & Hs)%IH.
      exists (String c pre), cap, post. split; [|done].
      split; [done|]. do 3 (split; [done|]).
      intros [|a0 a] b Hab Hb.
      * rewrite append_nil_l in Hab. subst b. rewrite append_cons.
        by apply match_here_nil.
      * rewrite append_cons in Hab. simplify_eq. by apply (Hleft a b).
    + intros [= <- <-].
      apply match_here_cons in Hm as (cap & post & Hd & Hs & Hne & Hc & Hpost).
      exists "", cap, post. split; [|done].
      split; [done|]. do 3 (split; [done|]).
      intros a b Hab Hb. by destruct a, b.
Qed.

(** ** getProjectVersion and openProject *)

Lemma getProjectVersion_absent projectPath w :
  w_file w (versionFile projectPath) = Absent →
  getProjectVersion projectPath w = (Fatal msg_no_file, add_stderr msg_no_file w).
Proof.
  intros Hf. unfold getProjectVersion, isExists. fold (versionFile projectPath).
  by rewrite Hf.
Qed.

Lemma getProjectVersion_content projectPath w data :
  w_file w (versionFile projectPath) = Content data →
  getProjectVersion projectPath w =
    match versionPattern_FindSubmatch data with
    | _ :: cap :: _ => (Ret cap, w)
    | _ => (Fatal msg_no_field, add_stderr msg_no_field w)
    end.
Proof.
  intros Hf. unfold getProjectVersion, isExists, ioutil_ReadFile.
  fold (versionFile projectPath). rewrite Hf. simpl negb. cbv iota.
  destruct (versionPattern_FindSubmatch data) as [|s0 [|s1 s]]; simpl length.
  - by rewrite decide_True by lia.
  - by rewrite decide_True by lia.
  - by rewrite decide_False by lia.
Qed.

Lemma getProjectVersion_Ret projectPath w v w' :
  getProjectVersion projectPath w = (Ret v, w') →
  w' = w ∧ ∃ data pre post,
    w_file w (versionFile projectPath) = Content data ∧
    leftmost_match data pre v post.
Proof.
  destruct (w_file w (versionFile projectPath)) as [|err|data] eqn:Hf.
  - by rewrite getProjectVersion_absent.
  - unfold getProjectVersion, isExists, ioutil_ReadFile.
    fold (versionFile projectPath). by rewrite Hf.
  - rewrite (getProjectVersion_content _ _ data) by done.
    destruct (versionPattern_FindSubmatch data) as [|s0 s] eqn:Hs; [done|].
    apply FindSubmatch_cons in Hs as (pre & cap & post & Hm & [= -> ->]).
    intros [= <- <-]. split; [done|]. by exists data, pre, post.
Qed.

Lemma getProjectVersion_no_match projectPath w data :
  w_file w (versionFile projectPath) = Content data → no_match data →
  getProjectVersion projectPath w = (Fatal msg_no_field, add_stderr msg_no_field w).
Proof.
  intros Hf Hno. rewrite (getProjectVersion_content _ _ data) by done.
  apply FindSubmatch_nil in Hno. by rewrite Hno.
Qed.

Lemma getProjectVersion_leftmost projectPath w data pre cap post :
  w_file w (versionFile projectPath) = Content data →
  leftmost_match data pre cap post →
  getProjectVersion projectPath w = (Ret cap, w).
Proof.
  intros Hf Hm. rewrite (getProjectVersion_content _ _ data) by done.
  by rewrite (FindSubmatch_leftmost _ _ _ _ Hm).
Qed.

Lemma openProject_lookup config path version w w1 :
  getProjectVersion path w = (Ret version, w1) →
  openProject config path w =
    match Versions config !! version with
    | Some exe => cmd_Start exe ["-projectPath"; path] w
    | None => (Fatal msg_not_found, add_stderr msg_not_found w)
    end.
Proof.
  intros Hv. pose proof (getProjectVersion_Ret _ _ _ _ Hv) as [-> _].
  unfold openProject, bind. rewrite Hv.
  by destruct (Versions config !! version).
Qed.

Lemma Count_app_0 s t c :
  strings_Count (s +:+ t) c = 0 ↔ strings_Count s c = 0 ∧ strings_Count t c = 0.
Proof. rewrite Count_app. lia. Qed.

(** C5.  Version extraction is fatal when the metadata file is absent and
    when its contents hold no match of the version pattern; when they hold
    one, it returns the capture of the leftmost match, which is the whole
    remainder of that line; and whatever it returns is such a capture,
    never the empty string. *)
Theorem getProjectVersion_extraction (projectPath : string) (w : World) :
  (w_file w (versionFile projectPath) = Absent →
   getProjectVersion projectPath w =
     (Fatal msg_no_file, add_stderr msg_no_file w)) ∧
  (∀ data,
     w_file w (versionFile projectPath) = Content data → no_match data →
     getProjectVersion projectPath w =
       (Fatal msg_no_field, add_stderr msg_no_field w)) ∧
  (∀ data pre cap post,
     w_file w (versionFile projectPath) = Content data →
     leftmost_match data pre cap post →
     getProjectVersion projectPath w = (Ret cap, w)) ∧
  (∀ v w',
     getProjectVersion projectPath w = (Ret v, w') →
     v ≠ "" ∧ ∃ data pre post,
       w_file w (versionFile projectPath) = Content data ∧
       leftmost_match data pre v post).
Proof.
  split; [apply getProjectVersion_absent|]. split; [|split].
  - apply getProjectVersion_no_match.
  - apply getProjectVersion_leftmost.
  - intros v w' (_ & data & pre & post & Hf & Hm)%getProjectVersion_Ret.
    split; [by destruct Hm as (_ & ? & _)|]. by exists data, pre, post.
Qed.

(** C4.  Resolution is one lookup of the extracted version in the
    mapping: on a hit the mapped executable is started with the project
    path, on a miss the run ends with the message that the version was not
    found, and nothing but that message is written. *)
Theorem openProject_direct_lookup (config : Config) (path version : string)
    (w w1 : World) :
  getProjectVersion path w = (Ret version, w1) →
  match Versions config !! version with
  | Some exe =>
      openProject config path w = cmd_Start exe ["-projectPath"; path] w ∧
      (w_start w exe ["-projectPath"; path] = None →
       openProject config path w =
         (Ret tt, add_started exe ["-projectPath"; path] w))
  | None =>
      openProject config path w =
        (Fatal msg_not_found, add_stderr msg_not_found w)
  end.
Proof.
  intros Hv. rewrite (openProject_lookup config _ _ _ _ Hv).
  destruct (Versions config !! version) as [exe|]; [|done].
  split; [done|]. intros Hs. unfold cmd_Start. by rewrite Hs.
Qed.

(** C10.  When the line of the leftmost match ends in a carriage return
    and a line feed, the carriage return is part of the returned version,
    and the lookup of that version in a mapping whose keys hold no carriage
    return misses. *)
Theorem getProjectVersion_crlf (config : Config) (projectPath : string)
    (w : World) (pre v post : string) :
  w_file w (versionFile projectPath) =
    Content (pre +:+ versionMarker +:+ v +:+ String CR (String LF post)) →
  strings_Count v LF = 0 →
  (∀ a b, pre = a +:+ b → b ≠ "" →
     ¬ match_starts (b +:+ versionMarker +:+ v +:+ String CR (String LF post))) →
  getProjectVersion projectPath w = (Ret (v +:+ String CR ""), w) ∧
  ((∀ key, is_Some (Versions config !! key) → strings_Count key CR = 0) →
   openProject config projectPath w =
     (Fatal msg_not_found, add_stderr msg_not_found w)).
Proof.
  intros Hf Hv Hleft.
  assert (getProjectVersion projectPath w = (Ret (v +:+ String CR ""), w)) as Hg.
  { apply (getProjectVersion_leftmost _ _ _ pre _ (String LF post) Hf).
    split; [|split; [|split; [|split]]].
    - by rewrite append_assoc.
    - by destruct v.
    - apply Count_app_0. by split.
    - right. by exists post.
    - intros a b Hab Hb. rewrite append_assoc. by apply (Hleft a b). }
  split; [done|]. intros Hkeys.
  rewrite (openProject_lookup config _ _ _ _ Hg).
  destruct (Versions config !! (v +:+ String CR "")) as [exe|] eqn:Hl; [|done].
  specialize (Hkeys _ (mk_is_Some _ _ Hl)).
  apply Count_app_0 in Hkeys as [_ Hcr]. done.
Qed.

(** ** deepFind *)

Lemma deepFind_cases root name w :
  deepFind root name w =
    match w_lstat w root with
    | StatErr e => (Fatal e, add_stderr e w)
    | StatOk n =>
        match walk deepFind_fn root n "" with
        | (Some dummyError, p) => (Ret p, w)
        | (Some (IOError e), _) => (Fatal e, add_stderr e w)
        | _ => (Fatal msg_nil, add_stderr msg_nil w)
        end
    end.
Proof.
  unfold deepFind, Walk. destruct (w_lstat w root) as [e|n]; [done|].
  by destruct (walk deepFind_fn root n "") as [[[| |e]|] p].
Qed.

Lemma deepFind_Ret root name w p w' :
  deepFind root name w = (Ret p, w') →
  w' = w ∧ ∃ n, w_lstat w root = StatOk n ∧ target_at root n p.
Proof.
  rewrite deepFind_cases. destruct (w_lstat w root) as [e|n]; [done|].
  pose proof (walk_answers n root "") as Ha. unfold walk_answer in Ha.
  destruct (walk deepFind_fn root n "") as [[[| |e]|] q]; try done.
  intros [= <- <-]. split; [done|]. by exists n.
Qed.

Lemma deepFind_not_found root name w n :
  w_lstat w root = StatOk n →
  (∀ p, ¬ target_at root n p) → (∀ e, ¬ unlistable e n) →
  deepFind root name w = (Fatal msg_nil, add_stderr msg_nil w).
Proof.
  intros Hn Hnt Hnu. rewrite deepFind_cases, Hn.
  pose proof (walk_answers n root "") as Ha. unfold walk_answer in Ha.
  destruct (walk deepFind_fn root n "") as [[[| |e]|] q]; simpl in Ha; try done.
  - by destruct (Hnt q).
  - destruct Ha as [_ Hu]. by destruct (Hnu e).
Qed.

Lemma deepFind_first_stop root name w n :
  w_lstat w root = StatOk n →
  deepFind root name w = stop_outcome (first_stop (visited root n)) w.
Proof.
  intros Hn. rewrite deepFind_cases, Hn.
  pose proof (walk_visited n root "") as Hv.
  destruct (first_stop (visited root n)) as [[p|e]|]; simpl in *.
  - by rewrite Hv.
  - by rewrite Hv.
  - by destruct Hv as [-> | ->].
Qed.

Lemma path_Join_nonempty a b : a ≠ "" → path_Join a b ≠ "".
Proof.
  intros Ha. unfold path_Join. rewrite filter_cons, decide_True by done.
  unfold path_Clean. by case_decide.
Qed.

Lemma split_on_nonempty c s : split_on c s ≠ [].
Proof.
  destruct s as [|a s]; [done|]. simpl.
  destruct (split_on c s); [done|]. by destruct (Ascii.eqb a c).
Qed.

Lemma split_on_element c name :
  strings_Count name c = 0 → split_on c name = [name].
Proof.
  induction name as [|a name IH]; [done|].
  intros [Ha Hn]%Count_0_cons. simpl. rewrite IH by done.
  by destruct (Ascii.eqb_spec a c).
Qed.

Lemma split_on_snoc c s name :
  strings_Count name c = 0 →
  split_on c (s +:+ String c name) = split_on c s ++ [name].
Proof.
  intros Hn. induction s as [|a s IH].
  - change ("" +:+ String c name) with (String c name). simpl.
    by rewrite split_on_element, Ascii.eqb_refl.
  - rewrite append_cons. simpl. rewrite IH.
    destruct (split_on c s) as [|h t] eqn:Hs; [by apply split_on_nonempty in Hs|].
    simpl. by destruct (Ascii.eqb a c).
Qed.

(** The roots [loadVersions] hands to [deepFind] under [defaultConfig]
    are plain. *)
Lemma default_root_plain name :
  wf_name name →
  path_Join (ProgramDir defaultConfig) name = "C:/Program Files/" +:+ name ∧
  plain_path (path_Join (ProgramDir defaultConfig) name) = true.
Proof.
  intros Hn.
  assert (path_Join (ProgramDir defaultConfig) name = "C:/Program Files/" +:+ name)
    as ->.
  { destruct Hn as (Hn0 & Hn1 & Hn2 & _ & Hsl & _).
    unfold path_Join. rewrite !filter_cons, filter_nil.
    rewrite decide_True by done. rewrite decide_True by done.
    change (String.concat "/" [ProgramDir defaultConfig; name])
      with ("C:/Program Files" +:+ String Slash name).
    unfold path_Clean.
    change (String.prefix "/" ("C:/Program Files" +:+ String Slash name)) with false.
    cbv zeta. rewrite split_on_snoc by done.
    change (split_on Slash "C:/Program Files") with ["C:"; "Program Files"].
    change (clean_components false [] (["C:"; "Program Files"] ++ [name]))
      with (clean_components false ["Program Files"; "C:"] [name]).
    simpl clean_components.
    rewrite (decide_False (P := name = "" ∨ name = ".")) by (intros [?|?]; done).
    rewrite (decide_False (P := name = "..")) by done.
    by rewrite decide_False. }
  split; [done|].
  change ("C:/Program Files/" +:+ name) with ("C:/Program Files" +:+ String Slash name).
  by apply plain_path_snoc.
Qed.

Lemma target_at_nonempty path n p : target_at path n p → path ≠ "" → p ≠ "".
Proof. induction 1; auto using filepath_Join_nonempty. Qed.

(** The path [deepFind] returns is never empty: the test [exe == ""] of
    [loadVersions] cannot succeed. *)
Lemma deepFind_never_empty root name w p w' :
  root ≠ "" → deepFind root name w = (Ret p, w') → p ≠ "".
Proof.
  intros Hr (_ & n & _ & Ht)%deepFind_Ret. by eapply target_at_nonempty.
Qed.

(** ** The scan *)

Section Scan.
Variable regexp_MustCompile : string → option Regexp.

(** The step of the loop on a directory whose name matches. *)
Lemma loadVersions_loop_match config r file files versions w :
  IsDir file = true → 2 ≤ length (r (Name file)) →
  loadVersions_loop config r (file :: files) versions w =
    match deepFind (path_Join (ProgramDir config) (Name file)) "Unity.exe" w with
    | (Ret exe, w1) =>
        if decide (exe = "")
        then loadVersions_loop config r files versions
               (add_stderr (Name file +:+ " has no Unity.exe!") w1)
        else loadVersions_loop config r files
               (<[default "" (r (Name file) !! 1) := exe]> versions) w1
    | (Fatal msg, w1) => (Fatal msg, w1)
    end.
Proof.
  intros Hd Hs. simpl. rewrite Hd. simpl. rewrite decide_True by done.
  unfold bind. destruct (deepFind _ _ w) as [[exe|msg] w1]; [|done].
  by case_decide.
Qed.

Lemma loadVersions_loop_skip config r file files versions w :
  IsDir file = false ∨ length (r (Name file)) < 2 →
  loadVersions_loop config r (file :: files) versions w =
    loadVersions_loop config r files versions w.
Proof.
  intros Hs. simpl. destruct (IsDir file); simpl; [|done].
  destruct Hs as [?|?]; [done|]. by rewrite decide_False by lia.
Qed.

Lemma loadVersions_loop_Ret config r files :
  ∀ versions w m w',
    loadVersions_loop config r files versions w = (Ret m, w') →
    w_lstat w' = w_lstat w ∧
    ∀ key exe, m !! key = Some exe →
      versions !! key = Some exe ∨
      ∃ file, file ∈ files ∧ contributes config r w file key exe.
Proof.
  induction files as [|file files IH]; intros versions w m w'.
  - intros [= <- <-]. auto.
  - destruct (decide (IsDir file = true ∧ 2 ≤ length (r (Name file))))
      as [[Hd Hs]|Hn].
    + rewrite loadVersions_loop_match by done.
      destruct (deepFind _ _ w) as [[exe|msg] w1] eqn:Hf; [|done].
      apply deepFind_Ret in Hf as (-> & n & Hn & Ht).
      case_decide as Hexe.
      * intros [Hl Hm]%IH. split; [done|].
        intros key exe' [?|(f & Hin & Hc)]%Hm; [by left|].
        right. exists f. split; [by right|done].
      * intros [Hl Hm]%IH. split; [done|].
        intros key exe' [Hk|(f & Hin & Hc)]%Hm.
        -- apply lookup_insert_Some in Hk as [[<- <-]|[_ ?]]; [|by left].
           right. exists file. split; [by left|].
           split; [done|]. split; [|by exists n].
           destruct (lookup_lt_is_Some_2 (r (Name file)) 1 Hs) as [key Hk].
           by rewrite Hk.
        -- right. exists f. split; [by right|done].
    + rewrite loadVersions_loop_skip.
      * intros [Hl Hm]%IH. split; [done|].
        intros key exe' [?|(f & Hin & Hc)]%Hm; [by left|].
        right. exists f. split; [by right|done].
      * destruct (IsDir file); [right|by left].
        apply not_and_l in Hn as [?|?]; [done|lia].
Qed.

Lemma loadVersions_unfold config w :
  loadVersions regexp_MustCompile config w =
    match regexp_MustCompile (DirPattern config) with
    | None => panic ("regexp: Compile(" +:+ DirPattern config +:+ ")") w
    | Some r =>
        match ioutil_ReadDir (ProgramDir config) w with
        | inl err => log_Fatal err w
        | inr files => loadVersions_loop config r files ∅ w
        end
    end.
Proof. unfold loadVersions. by destruct (regexp_MustCompile _). Qed.

(** C7.  Every key of the mapping a scan returns is the first capture
    group of the pattern on the name of an entry of the listing that is
    a directory, and its value is an executable found under that
    directory; entries that are not directories and names the pattern
    does not match give no key. *)
Theorem loadVersions_keys (config : Config) (w w' : World)
    (m : gmap string string) :
  loadVersions regexp_MustCompile config w = (Ret m, w') →
  ∃ r files,
    regexp_MustCompile (DirPattern config) = Some r ∧
    ioutil_ReadDir (ProgramDir config) w = inr files ∧
    (∀ key exe, m !! key = Some exe →
       ∃ file, file ∈ files ∧ IsDir file = true ∧
               r (Name file) !! 1 = Some key ∧
               contributes config r w file key exe) ∧
    (∀ key, (∀ file, file ∈ files → IsDir file = true →
                     r (Name file) !! 1 ≠ Some key) →
            m !! key = None).
Proof.
  rewrite loadVersions_unfold.
  destruct (regexp_MustCompile (DirPattern config)) as [r|]; [|done].
  destruct (ioutil_ReadDir (ProgramDir config) w) as [err|files]; [done|].
  intros [_ Hm]%loadVersions_loop_Ret. exists r, files.
  assert (∀ key exe, m !! key = Some exe →
            ∃ file, file ∈ files ∧ IsDir file = true ∧
                    r (Name file) !! 1 = Some key ∧
                    contributes config r w file key exe) as Hkeys.
  { intros key exe [Hk|(file & Hin & Hc)]%Hm; [done|].
    exists file. destruct Hc as (? & ? & ?). by repeat split. }
  do 3 (split; [done|]).
  intros key Hno. destruct (m !! key) as [exe|] eqn:Hk; [|done].
  destruct (Hkeys _ _ Hk) as (file & Hin & Hd & Hc & _).
  by destruct (Hno file).
Qed.

(** C1, as the code has it.  A directory whose name matches and under
    which the search meets neither an executable within the bound nor a
    listing error does not make [deepFind] return the empty path: the
    walk ends with a nil error, which is not the sentinel, and the scan
    ends there with [log.Fatal]. *)
Theorem loadVersions_missing_executable_fatal (config : Config) (r : Regexp)
    (file : FileInfo) (files : list FileInfo) (versions : gmap string string)
    (w : World) (n : node) :
  IsDir file = true → 2 ≤ length (r (Name file)) →
  w_lstat w (path_Join (ProgramDir config) (Name file)) = StatOk n →
  (∀ p, ¬ target_at (path_Join (ProgramDir config) (Name file)) n p) →
  (∀ e, ¬ unlistable e n) →
  loadVersions_loop config r (file :: files) versions w =
    (Fatal msg_nil, add_stderr msg_nil w).
Proof.
  intros Hd Hs Hn Hnt Hnu. rewrite loadVersions_loop_match by done.
  by rewrite (deepFind_not_found _ _ _ n).
Qed.
End Scan.

(** ** Load, rebuild and persistence *)

Lemma deepFind_world root name w r w' :
  deepFind root name w = (r, w') →
  w' = match r with Ret _ => w | Fatal msg => add_stderr msg w end.
Proof.
  rewrite deepFind_cases. destruct (w_lstat w root) as [e|n].
  - by intros [= <- <-].
  - destruct (walk deepFind_fn root n "") as [[[| |e]|] q]; by intros [= <- <-].
Qed.

Lemma deepFind_set_config c root name w :
  deepFind root name (set_config c w) =
    ((deepFind root name w).1, set_config c (deepFind root name w).2).
Proof.
  rewrite !deepFind_cases. simpl w_lstat.
  destruct (w_lstat w root) as [e|n]; [done|].
  by destruct (walk deepFind_fn root n "") as [[[| |e]|] q].
Qed.

Lemma loadVersions_loop_world config r files :
  ProgramDir config ≠ "" →
  ∀ versions w res w',
    loadVersions_loop config r files versions w = (res, w') →
    w' = match res with Ret _ => w | Fatal msg => add_stderr msg w end.
Proof.
  intros Hdir. induction files as [|file files IH]; intros versions w res w'.
  - by intros [= <- <-].
  - destruct (decide (IsDir file = true ∧ 2 ≤ length (r (Name file))))
      as [[Hd Hs]|Hn].
    + rewrite loadVersions_loop_match by done.
      destruct (deepFind _ _ w) as [[exe|msg] w1] eqn:Hf.
      * pose proof (deepFind_never_empty _ _ _ _ _
                      (path_Join_nonempty _ (Name file) Hdir) Hf) as Hexe.
        apply deepFind_world in Hf as ->. rewrite decide_False by done.
        apply IH.
      * apply deepFind_world in Hf as ->. by intros [= <- <-].
    + rewrite loadVersions_loop_skip; [apply IH|].
      destruct (IsDir file); [right|by left].
      apply not_and_l in Hn as [?|?]; [done|lia].
Qed.

Lemma loadVersions_loop_set_config c config r files :
  ∀ versions w,
    loadVersions_loop config r files versions (set_config c w) =
      ((loadVersions_loop config r files versions w).1,
       set_config c (loadVersions_loop config r files versions w).2).
Proof.
  induction files as [|file files IH]; intros versions w; [done|].
  destruct (decide (IsDir file = true ∧ 2 ≤ length (r (Name file))))
    as [[Hd Hs]|Hn].
  - rewrite !loadVersions_loop_match by done. rewrite deepFind_set_config.
    destruct (deepFind _ _ w) as [[exe|msg] w1]; simpl; [|done].
    case_decide; [|apply IH].
    exact (IH versions (add_stderr (Name file +:+ " has no Unity.exe!") w1)).
  - rewrite !loadVersions_loop_skip; [apply IH|..];
      (destruct (IsDir file); [right|by left]);
      apply not_and_l in Hn as [?|?]; done || lia.
Qed.

Section Registry.
Variable regexp_MustCompile : string → option Regexp.
Variable toml_Encode : Config → string.
Variable toml_Decode : string → option Config.


Lemma loadVersions_world config w res w' :
  ProgramDir config ≠ "" →
  loadVersions regexp_MustCompile config w = (res, w') →
  w' = match res with Ret _ => w | Fatal msg => add_stderr msg w end.
Proof.
  intros Hdir. rewrite loadVersions_unfold.
  destruct (regexp_MustCompile (DirPattern config)) as [r|].
  - destruct (ioutil_ReadDir (ProgramDir config) w) as [err|files].
    + by intros [= <- <-].
    + by apply loadVersions_loop_world.
  - by intros [= <- <-].
Qed.

Lemma loadVersions_set_config c config w :
  loadVersions regexp_MustCompile config (set_config c w) =
    ((loadVersions regexp_MustCompile config w).1, set_config c (loadVersions regexp_MustCompile config w).2).
Proof.
  rewrite !loadVersions_unfold.
  destruct (regexp_MustCompile (DirPattern config)) as [r|]; [|done].
  unfold ioutil_ReadDir. simpl w_lstat.
  destruct (w_lstat w (ProgramDir config)) as [e|[name|name entries|name e]];
    [done..| |done].
  apply loadVersions_loop_set_config.
Qed.

Lemma output_cases config w :
  output toml_Encode config w =
    match w_create w, w_write w with
    | Some err, _ => (Fatal err, add_stderr err w)
    | None, Some (n, err) =>
        if decide (n < String.length (toml_Encode config))
        then (Fatal err,
              add_stderr err
                (set_config (Content (String.substring 0 n (toml_Encode config))) w))
        else (Ret tt, set_config (Content (toml_Encode config)) w)
    | None, None => (Ret tt, set_config (Content (toml_Encode config)) w)
    end.
Proof.
  unfold output. simpl w_write.
  destruct (w_create w), (w_write w) as [[n err]|]; try done; by case_decide.
Qed.

Lemma initialize_cases w :
  initialize regexp_MustCompile toml_Encode w =
    match loadVersions regexp_MustCompile defaultConfig w with
    | (Ret versions, w1) =>
        match output toml_Encode (rebuilt versions) w1 with
        | (Ret _, w2) => (Ret (rebuilt versions), w2)
        | (Fatal msg, w2) => (Fatal msg, w2)
        end
    | (Fatal msg, w1) => (Fatal msg, w1)
    end.
Proof.
  unfold initialize, bind.
  destruct (loadVersions regexp_MustCompile defaultConfig w) as [[versions|msg] w1]; [|done].
  by destruct (output toml_Encode _ w1) as [[[]|msg] w2].
Qed.

(** A rebuild that succeeds leaves the encoded configuration in the
    file, and nothing on the standard error stream. *)
Lemma initialize_Ret w config w' :
  initialize regexp_MustCompile toml_Encode w = (Ret config, w') →
  w' = set_config (Content (toml_Encode config)) w.
Proof.
  rewrite initialize_cases.
  destruct (loadVersions regexp_MustCompile defaultConfig w) as [[versions|msg] w1] eqn:Hl; [|done].
  apply loadVersions_world in Hl as ->; [|done].
  rewrite output_cases.
  destruct (w_create w), (w_write w) as [[n err]|]; try done;
    try case_decide; try done; by intros [= <- <-].
Qed.

Lemma initialize_stderr w res w' :
  initialize regexp_MustCompile toml_Encode w = (res, w') →
  w_stderr w' = w_stderr w ++ fatal_line res.
Proof.
  rewrite initialize_cases.
  destruct (loadVersions regexp_MustCompile defaultConfig w) as [[versions|msg] w1] eqn:Hl;
    (apply loadVersions_world in Hl as ->; [|done]).
  - rewrite output_cases.
    destruct (w_create w), (w_write w) as [[n err]|]; try case_decide;
      intros [= <- <-]; simpl; by rewrite ?app_nil_r.
  - by intros [= <- <-].
Qed.

Lemma initialize_set_config c w :
  (initialize regexp_MustCompile toml_Encode (set_config c w)).1 = (initialize regexp_MustCompile toml_Encode w).1.
Proof.
  rewrite !initialize_cases, loadVersions_set_config.
  destruct (loadVersions regexp_MustCompile defaultConfig w) as [[versions|msg] w1]; simpl; [|done].
  rewrite !output_cases. simpl.
  destruct (w_create w1), (w_write w1) as [[n err]|]; try done; by case_decide.
Qed.

(** C8.  With the reload flag the run rebuilds, whatever the storage
    holds; without it the run loads, and works with the loaded
    configuration, leaving the world as it was, when the file decodes;
    when the file is absent, unreadable or does not decode, the run is
    the rebuild and nothing else: the only line it can leave on the
    standard error stream is the fatal message of the rebuild itself. *)
Theorem startup_load_or_rebuild (w : World) :
  startup regexp_MustCompile toml_Encode toml_Decode true w = initialize regexp_MustCompile toml_Encode w ∧
  (∀ c, (startup regexp_MustCompile toml_Encode toml_Decode true (set_config c w)).1 = (startup regexp_MustCompile toml_Encode toml_Decode true w).1) ∧
  (∀ doc config,
     w_config w = Content doc → toml_Decode doc = Some config →
     startup regexp_MustCompile toml_Encode toml_Decode false w = (Ret config, w)) ∧
  (w_config w = Absent ∨
   (∃ err, w_config w = Unreadable err) ∨
   (∃ doc, w_config w = Content doc ∧ toml_Decode doc = None) →
   startup regexp_MustCompile toml_Encode toml_Decode false w = initialize regexp_MustCompile toml_Encode w ∧
   ∀ res w', startup regexp_MustCompile toml_Encode toml_Decode false w = (res, w') →
             w_stderr w' = w_stderr w ++ fatal_line res).
Proof.
  split; [done|]. split; [|split].
  - intros c. apply initialize_set_config.
  - intros doc config Hc Hd. unfold startup, toml_DecodeFile.
    by rewrite Hc, Hd.
  - intros Hfail.
    assert (startup regexp_MustCompile toml_Encode toml_Decode false w = initialize regexp_MustCompile toml_Encode w) as ->.
    { unfold startup, toml_DecodeFile.
      destruct Hfail as [->|[[err ->]|(doc & -> & ->)]]; done. }
    split; [done|]. apply initialize_stderr.
Qed.
End Registry.

(** C9.  The second argument of [deepFind] plays no part: the search for
    any name is the search for Unity.exe, and what it returns is the path
    of a non-directory of that name. *)
Theorem deepFind_ignores_name (root name : string) :
  deepFind root name = deepFind root "Unity.exe" ∧
  ∀ w p w', deepFind root name w = (Ret p, w') →
            ∃ n, w_lstat w root = StatOk n ∧ target_at root n p.
Proof.
  split; [done|]. intros w p w' (_ & n & Hn & Ht)%deepFind_Ret. by exists n.
Qed.

Lemma deepFind_ignores_name_witness :
  deepFind "C:/Program Files/Git" "git.exe" w_installed =
    (Fatal msg_nil, add_stderr msg_nil w_installed).
Proof.
  rewrite (proj1 (deepFind_ignores_name "C:/Program Files/Git" "git.exe")).
  vm_compute. reflexivity.
Defined.

(** C2, as the code has it.  The search never returns a path of more than
    [depthCutoff] separators; a file, or a directory that can be listed,
    whose path holds more is answered with [SkipDir] whatever lies below
    it; and when a non-directory named Unity.exe lies under a plain root
    within the bound, with every directory above it within the bound, the
    walk visits it unless it ends before, and the search is decided by
    the first visit that is such a file or a directory that cannot be
    listed: the file is returned, which is the target or one visited
    before it, or the directory ends the run with its error, being
    visited before the target. *)
Theorem deepFind_depth_cutoff (root name : string) (w : World) :
  (∀ p w', deepFind root name w = (Ret p, w') → depth p ≤ depthCutoff) ∧
  (∀ path st, depthCutoff < depth path →
     (∀ fname, walk deepFind_fn path (File fname) st = (Some SkipDir, st)) ∧
     (∀ dname entries,
        walk deepFind_fn path (Dir dname entries) st = (Some SkipDir, st))) ∧
  (∀ n p,
     w_lstat w root = StatOk n → plain_path root = true → wf_tree n →
     target_at root n p →
     ∃ before x after,
       visited root n = before ++ x :: after ∧
       Forall (λ y, stop_of y = None) before ∧
       (x = (p, File "Unity.exe") ∨ (p, File "Unity.exe") ∈ after) ∧
       ((∃ q, x = (q, File "Unity.exe") ∧ target_at root n q ∧
              deepFind root name w = (Ret q, w)) ∨
        (∃ d dname e, x = (d, NoList dname e) ∧ unlistable e n ∧
              deepFind root name w = (Fatal e, add_stderr e w)))).
Proof.
  split; [|split].
  - intros p w' (_ & n & _ & Ht)%deepFind_Ret. by eapply target_at_found_depth.
  - intros path st Hd. split; intros; by rewrite walk_pruned.
  - intros n p Hn Hp Hwf Ht.
    pose proof (target_visited root n p Ht Hwf Hp) as Hin.
    assert (stop_of (p, File "Unity.exe") = Some (Found p)) as Hstop.
    { unfold stop_of. simpl.
      by rewrite bool_decide_eq_true_2 by (by eapply target_at_found_depth). }
    destruct (first_stop_split _ _ _ Hin Hstop)
      as (before & x & after & s & Hv & Hb & Hx & Hfirst & Hor).
    exists before, x, after. do 3 (split; [done|]).
    pose proof (deepFind_first_stop root name w n Hn) as Hd.
    rewrite Hfirst in Hd. destruct x as [q m]. unfold stop_of in Hx. simpl in Hx.
    destruct m as [fname|dname entries|dname e]; [| done |].
    + destruct (String.eqb_spec fname "Unity.exe") as [->|]; [|done].
      destruct (bool_decide (depth q ≤ depthCutoff)); [|done].
      injection Hx as <-. left. exists q. split; [done|]. split; [|done].
      apply deepFind_Ret in Hd as (_ & n' & Hn' & Ht').
      by assert (n' = n) as -> by congruence.
    + injection Hx as <-. right. exists q, dname, e. split; [done|]. split; [|done].
      pose proof (walk_visited n root "") as Hw. rewrite Hfirst in Hw.
      pose proof (walk_answers n root "") as Ha. rewrite Hw in Ha.
      by destruct Ha as [_ Hu].
Qed.

Lemma wf_name_Editor : wf_name "Editor".
Proof. by repeat split. Qed.

Lemma wf_name_exe : wf_name "Unity.exe".
Proof. by repeat split. Qed.

Lemma wf_editor : wf_tree editor.
Proof.
  constructor. constructor; [|done]. split; [apply wf_name_exe|constructor].
Qed.

(** C2 at the installation of Unity 5.6.1f1. *)
Lemma deepFind_depth_cutoff_witness :
  w_lstat w_installed root56 = StatOk (Dir "Unity5.6.1f1" [editor]) ∧
  plain_path root56 = true ∧
  ∃ before x after,
    visited root56 (Dir "Unity5.6.1f1" [editor]) = before ++ x :: after ∧
    Forall (λ y, stop_of y = None) before ∧
    (x = (exe56, File "Unity.exe") ∨ (exe56, File "Unity.exe") ∈ after) ∧
    ((∃ q, x = (q, File "Unity.exe") ∧
           target_at root56 (Dir "Unity5.6.1f1" [editor]) q ∧
           deepFind root56 "Unity.exe" w_installed = (Ret q, w_installed)) ∨
     (∃ d dname e, x = (d, NoList dname e) ∧
           unlistable e (Dir "Unity5.6.1f1" [editor]) ∧
           deepFind root56 "Unity.exe" w_installed =
             (Fatal e, add_stderr e w_installed))).
Proof.
  split; [vm_compute; reflexivity|]. split; [vm_compute; reflexivity|].
  apply (proj2 (proj2 (deepFind_depth_cutoff root56 "Unity.exe" w_installed))
           _ exe56).
  - vm_compute. reflexivity.
  - vm_compute. reflexivity.
  - constructor. constructor; [|done]. split; [apply wf_name_Editor|apply wf_editor].
  - apply (target_below _ _ _ editor); [vm_compute; lia|by left|].
    apply (target_below _ _ _ (File "Unity.exe")); [vm_compute; lia|by left|].
    apply (target_here exe56). vm_compute. lia.
Defined.

(** C2 as stated fails: the executable lies in reach, four separators
    deep, and the search does not return it. *)
Lemma deepFind_found_counterexample :
  w_lstat w_denied root56 = StatOk denied ∧
  wf_tree denied ∧
  target_at root56 denied exe56 ∧
  depth exe56 ≤ depthCutoff ∧
  deepFind root56 "Unity.exe" w_denied =
    (Fatal "Access is denied.", add_stderr "Access is denied." w_denied).
Proof.
  split; [vm_compute; reflexivity|]. split; [|split; [|split]].
  - constructor. constructor; [by repeat split; try constructor|].
    constructor; [|done]. split; [apply wf_name_Editor|apply wf_editor].
  - apply (target_below _ _ _ editor); [vm_compute; lia|by right; left|].
    apply (target_below _ _ _ (File "Unity.exe")); [vm_compute; lia|by left|].
    apply (target_here exe56). vm_compute. lia.
  - vm_compute. lia.
  - vm_compute. reflexivity.
Qed.

(** ** The claims on the sample worlds *)

(** C1 on the failing input: the scan of [missing_executable] stops at the
    first matched directory; the notice is not written and the second
    directory is not scanned. *)
Lemma loadVersions_missing_executable_witness :
  loadVersions sample_MustCompile defaultConfig w_missing =
    (Fatal msg_nil, add_stderr msg_nil w_missing).
Proof.
  change (loadVersions sample_MustCompile defaultConfig w_missing)
    with (loadVersions_loop defaultConfig unity_dir_re
            [mkInfo "Unity2019.4.1f1" true; mkInfo "Unity5.6.1f1" true] ∅ w_missing).
  apply (loadVersions_missing_executable_fatal defaultConfig unity_dir_re _ _ _ _
           (Dir "Unity2019.4.1f1" [Dir "Editor" [File "Readme.txt"]])).
  - reflexivity.
  - vm_compute. lia.
  - vm_compute. reflexivity.
  - intros p Ht. inversion Ht as [|? ? ? c ? _ Hc Hc']; subst.
    apply list_elem_of_singleton in Hc as ->.
    inversion Hc' as [|? ? ? c ? _ Hf Hf']; subst.
    apply list_elem_of_singleton in Hf as ->. inversion Hf'.
  - intros e Hu. inversion Hu as [|? ? c Hc Hc']; subst.
    apply list_elem_of_singleton in Hc as ->.
    inversion Hc' as [|? ? c Hf Hf']; subst.
    apply list_elem_of_singleton in Hf as ->. inversion Hf'.
Defined.

Lemma getVersionKeys_ordered_witness :
  getVersionKeys_range ["2021.1"; "5.6"; "2019.4"; "4.7"] =
    getVersionKeys config_four ∧
  getVersionKeys config_four = ["4.7"; "5.6"; "2019.4"; "2021.1"].
Proof.
  split; [|vm_compute; reflexivity].
  apply (getVersionKeys_ordered config_four).
  apply (bool_decide_unpack _). vm_compute. exact I.
Defined.

(** The two runs of the resolution example: a hit and a miss. *)
Lemma openProject_direct_lookup_witness :
  getProjectVersion "C:/proj" w_rebuilt = (Ret "5.6.1f1", w_rebuilt) ∧
  openProject config_installed "C:/proj" w_rebuilt =
    (Ret tt, add_started exe56 ["-projectPath"; "C:/proj"] w_rebuilt).
Proof.
  split; [vm_compute; reflexivity|].
  pose proof (openProject_direct_lookup config_installed "C:/proj" "5.6.1f1"
                w_rebuilt w_rebuilt eq_refl) as H.
  change (Versions config_installed !! "5.6.1f1") with (Some exe56) in H.
  apply H. reflexivity.
Defined.

Example openProject_miss :
  openProject config_installed "C:/proj" w_other =
    (Fatal msg_not_found, add_stderr msg_not_found w_other).
Proof. vm_compute. reflexivity. Qed.

Lemma leftmost_version_lf : leftmost_match version_lf "" "5.6.1f1" (String LF "").
Proof.
  split; [done|]. split; [done|]. split; [done|]. split; [right; by exists ""|].
  intros a b Hab Hb. by destruct a, b.
Qed.

Lemma getProjectVersion_extraction_witness :
  w_file w_installed (versionFile "C:/proj") = Content version_lf ∧
  getProjectVersion "C:/proj" w_installed = (Ret "5.6.1f1", w_installed).
Proof.
  split; [vm_compute; reflexivity|].
  apply (proj1 (proj2 (proj2 (getProjectVersion_extraction "C:/proj" w_installed)))
           version_lf "" "5.6.1f1" (String LF "")).
  - vm_compute. reflexivity.
  - apply leftmost_version_lf.
Defined.

Lemma getProjectVersion_crlf_witness :
  getProjectVersion "C:/proj" w_crlf = (Ret ("5.6.1f1" +:+ String CR ""), w_crlf) ∧
  openProject config_installed "C:/proj" w_crlf =
    (Fatal msg_not_found, add_stderr msg_not_found w_crlf).
Proof.
  destruct (getProjectVersion_crlf config_installed "C:/proj" w_crlf
              "" "5.6.1f1" "") as [Hv Ho].
  - vm_compute. reflexivity.
  - reflexivity.
  - intros a b Hab Hb. by destruct a, b.
  - split; [exact Hv|]. apply Ho. intros key [exe Hk].
    apply elem_of_list_to_map_2 in Hk.
    apply elem_of_cons in Hk as [[= -> _]|Hk]; [done|].
    apply list_elem_of_singleton in Hk as [= -> _]. done.
Defined.

Lemma loadVersions_keys_witness :
  loadVersions sample_MustCompile defaultConfig w_installed =
    (Ret versions_installed, w_installed) ∧
  ∃ file, file ∈ [mkInfo "Git" true; mkInfo "Unity2019.4.1f1" true;
                  mkInfo "Unity5.6.1f1" true; mkInfo "Unity.txt" false] ∧
          IsDir file = true ∧
          unity_dir_re (Name file) !! 1 = Some "5.6.1f1".
Proof.
  assert (loadVersions sample_MustCompile defaultConfig w_installed =
            (Ret versions_installed, w_installed)) as Hl
    by (vm_compute; reflexivity).
  split; [exact Hl|].
  destruct (loadVersions_keys sample_MustCompile _ _ _ _ Hl)
    as (r & files & Hr & Hf & Hkeys & _).
  injection Hr as <-. injection Hf as <-.
  destruct (Hkeys "5.6.1f1" exe56 eq_refl) as (file & Hin & Hd & Hc & _).
  by exists file.
Defined.

Lemma startup_load_or_rebuild_witness :
  startup sample_MustCompile sample_Encode sample_Decode false w_installed =
    initialize sample_MustCompile sample_Encode w_installed ∧
  startup sample_MustCompile sample_Encode sample_Decode false w_rebuilt =
    (Ret config_installed, w_rebuilt).
Proof.
  split.
  - apply (startup_load_or_rebuild sample_MustCompile sample_Encode sample_Decode
             w_installed). by left.
  - apply (proj1 (proj2 (proj2 (startup_load_or_rebuild sample_MustCompile
             sample_Encode sample_Decode w_rebuilt)))
             (sample_Encode config_installed)); vm_compute; reflexivity.
Defined.

(** * Further properties of the code *)

(** ** deepFind: which executable is found *)

Lemma preorder_Dir path name entries :
  preorder path (Dir name entries) =
    (path, Dir name entries) :: preorder_entries path entries.
Proof.
  simpl. f_equal. induction entries as [|c es IH]; [done|].
  simpl. by rewrite IH.
Qed.

Lemma depth_Join_ge path name :
  plain_path path = true → wf_name name →
  depth path ≤ depth (filepath_Join path name).
Proof.
  intros Hp Hn. rewrite depth_Join by done.
  pose proof (depth_FromSlash_ge path). lia.
Qed.

Lemma preorder_depth n :
  wf_tree n →
  ∀ path pn, plain_path path = true → pn ∈ preorder path n →
             depth path ≤ depth pn.1.
Proof.
  induction n as [name|name entries IH|name err] using node_nested_ind;
    intros Hwf path pn Hp.
  - simpl. intros ->%list_elem_of_singleton. done.
  - rewrite preorder_Dir. intros [->|Hin]%elem_of_cons; [done|].
    inversion Hwf as [| |? ? Hall]; subst. clear Hwf.
    induction entries as [|c es IHes]; [by apply elem_of_nil in Hin|].
    apply Forall_cons in IH as [IHc IH]. apply Forall_cons in Hall as [[Hn Hc] Hall].
    simpl in Hin. apply elem_of_app in Hin as [Hin|Hin]; [|by apply IHes].
    etrans; [apply (depth_Join_ge path _ Hp Hn)|].
    apply IHc; [done| |done]. by apply plain_path_Join.
  - simpl. intros ->%list_elem_of_singleton. done.
Qed.

Lemma filter_none {A} (P : A → Prop) `{∀ x, Decision (P x)} (l : list A) :
  Forall (λ x, ¬ P x) l → filter P l = [].
Proof.
  induction 1 as [|x l Hx _ IH]; [done|]. by rewrite filter_cons_False.
Qed.

Lemma no_executable_beyond path n :
  wf_tree n → plain_path path = true → depthCutoff < depth path →
  filter (λ pn, executable_withinb pn = true) (preorder path n) = [].
Proof.
  intros Hwf Hp Hd. apply filter_none, Forall_forall. intros pn Hin.
  pose proof (preorder_depth n Hwf path pn Hp Hin) as Hge.
  unfold executable_withinb. rewrite bool_decide_eq_false_2 by lia.
  by rewrite andb_false_r.
Qed.

Lemma no_executable_beyond_entries path es :
  Forall (λ c, wf_name (Name (stat c)) ∧ wf_tree c) es →
  plain_path path = true →
  (∀ c, c ∈ es → depthCutoff < depth (filepath_Join path (Name (stat c)))) →
  filter (λ pn, executable_withinb pn = true) (preorder_entries path es) = [].
Proof.
  induction 1 as [|c es [Hn Hc] _ IH]; intros Hp Hd; [done|].
  simpl. rewrite filter_app, no_executable_beyond, IH; [done|done| |done| |].
  - intros c' Hin. apply Hd. by right.
  - by apply plain_path_Join.
  - apply Hd. by left.
Qed.

Lemma walk_entries_first path es :
  Forall (λ c, wf_name (Name (stat c)) ∧ wf_tree c) es →
  plain_path path = true →
  Forall (λ c, ∀ path st,
            plain_path path = true →
            first_answer
              (head (filter (λ pn, executable_withinb pn = true) (preorder path c)))
              st (walk deepFind_fn path c st)) es →
  ∀ st, first_answer
          (head (filter (λ pn, executable_withinb pn = true)
                   (preorder_entries path es)))
          st (walk_entries deepFind_fn path es st).
Proof.
  intros Hwf Hp. induction Hwf as [|c es [Hn Hc] Hwf IH]; intros Hall st.
  { by left. }
  apply Forall_cons in Hall as [Hfirst Hall]. specialize (IH Hall).
  rewrite walk_entries_cons.
  change (preorder_entries path (c :: es))
    with (preorder (filepath_Join path (Name (stat c))) c ++ preorder_entries path es).
  rewrite filter_app, head_app.
  specialize (Hfirst (filepath_Join path (Name (stat c))) st
                (plain_path_Join _ _ Hp Hn)).
  pose proof (walk_answers c (filepath_Join path (Name (stat c))) st) as Hans.
  destruct (head (filter _ (preorder (filepath_Join path (Name (stat c))) c)))
    as [pn|] eqn:Hhead; unfold first_answer in Hfirst.
  - rewrite Hfirst. simpl. by rewrite orb_true_r.
  - destruct Hfirst as [Hw|Hw]; rewrite Hw in *; simpl.
    + apply IH.
    + destruct (IsDir (stat c)) eqn:Hdir; simpl; [apply IH|].
      unfold walk_answer in Hans. simpl in Hans. destruct Hans as [_ Hd].
      specialize (Hd Hdir).
      rewrite no_executable_beyond_entries; [by right|done|done|].
      intros c' Hin. eapply Forall_forall in Hwf as [Hn' _]; [|done].
      rewrite (depth_Join path _ Hp Hn').
      by rewrite (depth_Join path _ Hp Hn) in Hd.
Qed.

Lemma unlistable_entry e name entries c :
  c ∈ entries → unlistable e c → unlistable e (Dir name entries).
Proof. intros. by econstructor. Qed.

Lemma walk_first n :
  wf_tree n → listable n →
  ∀ path st,
    plain_path path = true →
    first_answer
      (head (filter (λ pn, executable_withinb pn = true) (preorder path n)))
      st (walk deepFind_fn path n st).
Proof.
  induction n as [name|name entries IH|name err] using node_nested_ind;
    intros Hwf Hl path st Hp.
  - change (walk deepFind_fn path (File name) st)
      with (deepFind_fn path (Some (mkInfo name false)) None st).
    rewrite deepFind_fn_file.
    assert (executable_withinb (path, File name) =
              String.eqb name "Unity.exe" && bool_decide (depth path ≤ depthCutoff))
      as Hb by done.
    change (preorder path (File name)) with [(path, File name)].
    destruct (decide (depthCutoff < depth path)) as [Hd|Hd].
    + rewrite filter_cons_False, filter_nil; [by right|].
      rewrite Hb, bool_decide_eq_false_2 by lia. by rewrite andb_false_r.
    + rewrite bool_decide_eq_true_2, andb_true_r in Hb by lia.
      destruct (String.eqb name "Unity.exe").
      * by rewrite filter_cons_True, filter_nil.
      * rewrite filter_cons_False, filter_nil; [by left|]. by rewrite Hb.
  - rewrite walk_Dir, deepFind_fn_dir. case_decide as Hd.
    + rewrite no_executable_beyond by done. by right.
    + rewrite preorder_Dir, filter_cons_False by (by unfold executable_withinb).
      inversion Hwf as [| |? ? Hall]; subst.
      apply walk_entries_first; [done|done|].
      apply Forall_forall. intros c Hin.
      eapply Forall_forall in IH; [|done].
      eapply Forall_forall in Hall as [_ Hc]; [|done].
      apply IH; [done|]. intros e Hu. apply (Hl e). by econstructor.
  - destruct (Hl err). constructor.
Qed.

(** X1.  Under a plain root, on a tree that can be listed throughout and
    whose entry names are as a listing returns them, [deepFind] returns
    the first non-directory named Unity.exe within the cutoff in the order
    of the walk (a directory before its entries, the entries in the order
    of the listing), and ends the run with the nil error when there is
    none. *)
Theorem deepFind_first_in_walk_order (root name : string) (w : World) (n : node) :
  plain_path root = true →
  w_lstat w root = StatOk n → wf_tree n → listable n →
  deepFind root name w =
    match first_executable root n with
    | Some p => (Ret p, w)
    | None => (Fatal msg_nil, add_stderr msg_nil w)
    end.
Proof.
  intros Hp Hn Hwf Hl. rewrite deepFind_cases, Hn.
  pose proof (walk_first n Hwf Hl root "" Hp) as Hfirst.
  unfold first_executable.
  destruct (head (filter _ (preorder root n))) as [pn|]; simpl in *.
  - by rewrite Hfirst.
  - by destruct Hfirst as [->| ->].
Qed.

Lemma listable_two_executables : listable two_executables.
Proof.
  intros e Hu. inversion Hu as [|? ? c Hc Hc']; subst.
  apply elem_of_cons in Hc as [->|Hc].
  - inversion Hc' as [|? ? c Hf Hf']; subst.
    apply list_elem_of_singleton in Hf as ->. inversion Hf'.
  - apply list_elem_of_singleton in Hc as ->.
    inversion Hc' as [|? ? c Hf Hf']; subst.
    apply list_elem_of_singleton in Hf as ->. inversion Hf'.
Qed.

Lemma wf_two_executables : wf_tree two_executables.
Proof.
  constructor. constructor.
  - split; [by repeat split|]. constructor. constructor; [|done].
    split; [apply wf_name_exe|constructor].
  - constructor; [|done]. split; [apply wf_name_Editor|apply wf_editor].
Qed.

Lemma deepFind_first_in_walk_order_witness :
  plain_path root56 = true ∧
  first_executable root56 two_executables =
    Some "C:\Program Files\Unity5.6.1f1\Backup\Unity.exe" ∧
  deepFind root56 "Unity.exe" w_two =
    (Ret "C:\Program Files\Unity5.6.1f1\Backup\Unity.exe", w_two).
Proof.
  split; [vm_compute; reflexivity|]. split; [vm_compute; reflexivity|].
  rewrite (deepFind_first_in_walk_order root56 "Unity.exe" w_two two_executables).
  - vm_compute. reflexivity.
  - vm_compute. reflexivity.
  - vm_compute. reflexivity.
  - apply wf_two_executables.
  - apply listable_two_executables.
Defined.

(** ** deepFind: what a returned path looks like *)

Lemma target_at_shape path n p :
  target_at path n p → wf_tree n → plain_path path = true →
  (n = File "Unity.exe" ∧ p = path) ∨
  ∃ mid, p = FromSlash path +:+ mid +:+ String Separator "Unity.exe".
Proof.
  induction 1 as [path Hd|path name entries c p Hd Hin Ht IH]; intros Hwf Hp.
  - by left.
  - right. inversion Hwf as [| |? ? Hall]; subst.
    assert (wf_name (Name (stat c)) ∧ wf_tree c) as [Hcn Hwc]
      by (by eapply Forall_forall in Hall).
    pose proof (filepath_Join_plain path _ Hp Hcn) as Hj.
    destruct (IH Hwc (plain_path_Join _ _ Hp Hcn)) as [[-> ->]|[mid ->]].
    + exists "". by rewrite Hj.
    + exists (String Separator (Name (stat c)) +:+ mid).
      rewrite Hj, FromSlash_app.
      change (FromSlash (String Separator (Name (stat c))))
        with (String Separator (FromSlash (Name (stat c)))).
      destruct Hcn as (_ & _ & _ & _ & Hsl & _).
      by rewrite FromSlash_idem, (FromSlash_element _ Hsl), !append_assoc.
Qed.

(** X2.  Under a plain root and with entry names as a listing returns
    them, a path [deepFind] returns is not empty and lies where the search
    was made: it is the root itself, when the root is a file named
    Unity.exe, or the root with its slashes turned into separators followed
    by a path that ends in a separator and Unity.exe; and the world is as it
    was before the call. *)
Theorem deepFind_result_shape (root name : string) (w w' : World) (n : node)
    (p : string) :
  plain_path root = true →
  w_lstat w root = StatOk n → wf_tree n →
  deepFind root name w = (Ret p, w') →
  w' = w ∧ p ≠ "" ∧
  ((n = File "Unity.exe" ∧ p = root) ∨
   ∃ mid, p = FromSlash root +:+ mid +:+ String Separator "Unity.exe").
Proof.
  intros Hp Hn Hwf Hf.
  assert (root ≠ "") as Hr by (by intros ->).
  pose proof (deepFind_never_empty _ _ _ _ _ Hr Hf) as Hne.
  apply deepFind_Ret in Hf as (-> & n' & Hn' & Ht).
  assert (n' = n) as -> by congruence.
  split; [done|]. split; [done|].
  by apply target_at_shape.
Qed.

Lemma deepFind_result_shape_witness :
  plain_path root56 = true ∧
  exe56 = FromSlash root56 +:+ "\Editor" +:+ String Separator "Unity.exe" ∧
  ∃ mid, exe56 = FromSlash root56 +:+ mid +:+ String Separator "Unity.exe".
Proof.
  split; [vm_compute; reflexivity|]. split; [reflexivity|].
  destruct (deepFind_result_shape root56 "Unity.exe" w_installed w_installed
              (Dir "Unity5.6.1f1" [editor]) exe56)
    as (_ & _ & [[Hfile _]|Hmid]).
  - vm_compute. reflexivity.
  - vm_compute. reflexivity.
  - constructor. constructor; [|done]. split; [apply wf_name_Editor|apply wf_editor].
  - reflexivity.
  - discriminate Hfile.
  - exact Hmid.
Defined.

(** ** loadVersions: what a returned mapping holds *)

Lemma loadVersions_loop_app config r files1 files2 :
  ∀ versions w,
    loadVersions_loop config r (files1 ++ files2) versions w =
      match loadVersions_loop config r files1 versions w with
      | (Ret versions1, w1) => loadVersions_loop config r files2 versions1 w1
      | (Fatal msg, w1) => (Fatal msg, w1)
      end.
Proof.
  induction files1 as [|file files1 IH]; intros versions w; [done|].
  rewrite <- app_comm_cons.
  destruct (decide (IsDir file = true ∧ 2 ≤ length (r (Name file))))
    as [[Hd Hs]|Hn].
  - rewrite !loadVersions_loop_match by done.
    destruct (deepFind _ _ w) as [[exe|msg] w1]; [|done].
    case_decide; apply IH.
  - rewrite !loadVersions_loop_skip; [apply IH|..];
      (destruct (IsDir file); [right|by left]);
      apply not_and_l in Hn as [?|?]; done || lia.
Qed.

Lemma capture_default (s : list string) key :
  s !! 1 = Some key → default "" (s !! 1) = key ∧ 2 ≤ length s.
Proof.
  intros Hk. rewrite Hk. split; [done|]. apply lookup_lt_Some in Hk. lia.
Qed.

(** Entries that do not yield [key] leave its value as it is. *)
Lemma loadVersions_loop_preserves config r key files :
  (∀ f, f ∈ files → IsDir f = true → r (Name f) !! 1 ≠ Some key) →
  ∀ versions w m w',
    loadVersions_loop config r files versions w = (Ret m, w') →
    m !! key = versions !! key.
Proof.
  induction files as [|file files IH]; intros Hno versions w m w'.
  - by intros [= <- <-].
  - assert (∀ f, f ∈ files → IsDir f = true → r (Name f) !! 1 ≠ Some key) as Hno'.
    { intros f Hin. apply Hno. by right. }
    destruct (decide (IsDir file = true ∧ 2 ≤ length (r (Name file))))
      as [[Hd Hs]|Hn].
    + rewrite loadVersions_loop_match by done.
      destruct (deepFind _ _ w) as [[exe|msg] w1]; [|done].
      case_decide.
      * by apply IH.
      * intros Hl. rewrite (IH Hno' _ _ _ _ Hl). apply lookup_insert_ne.
        destruct (lookup_lt_is_Some_2 (r (Name file)) 1 Hs) as [k Hk].
        rewrite Hk. simpl. intros ->. by apply (Hno file); [left|..].
    + rewrite loadVersions_loop_skip; [by apply IH|].
      destruct (IsDir file); [right|by left].
      apply not_and_l in Hn as [?|?]; [done|lia].
Qed.

(** A scan that returns has found an executable under every directory it
    matched, and holds a key for each. *)
Lemma loadVersions_loop_complete config r files :
  ProgramDir config ≠ "" →
  ∀ versions w m w',
    loadVersions_loop config r files versions w = (Ret m, w') →
    (∀ key, is_Some (versions !! key) → is_Some (m !! key)) ∧
    ∀ file, file ∈ files → IsDir file = true → 2 ≤ length (r (Name file)) →
      ∃ key exe,
        r (Name file) !! 1 = Some key ∧ is_Some (m !! key) ∧
        deepFind (path_Join (ProgramDir config) (Name file)) "Unity.exe" w =
          (Ret exe, w).
Proof.
  intros Hdir. induction files as [|file files IH]; intros versions w m w'.
  - intros [= <- <-]. split; [done|]. intros file Hin. by apply elem_of_nil in Hin.
  - destruct (decide (IsDir file = true ∧ 2 ≤ length (r (Name file))))
      as [[Hd Hs]|Hn].
    + rewrite loadVersions_loop_match by done.
      destruct (deepFind _ _ w) as [[exe|msg] w1] eqn:Hf; [|done].
      pose proof (deepFind_never_empty _ _ _ _ _
                    (path_Join_nonempty _ (Name file) Hdir) Hf) as Hexe.
      pose proof (deepFind_world _ _ _ _ _ Hf) as Hw. simpl in Hw. subst w1.
      rewrite decide_False by done.
      intros [Hmono Hall]%IH.
      destruct (lookup_lt_is_Some_2 (r (Name file)) 1 Hs) as [k Hk].
      rewrite Hk in Hmono. simpl in Hmono.
      split.
      * intros key Hkey. apply Hmono.
        destruct (decide (k = key)) as [->|Hne].
        -- rewrite lookup_insert_eq. by eexists.
        -- by rewrite lookup_insert_ne.
      * intros f [->|Hin]%elem_of_cons Hfd Hfs; [|by apply Hall].
        exists k, exe. split; [done|]. split; [|done].
        apply Hmono. rewrite lookup_insert_eq. by eexists.
    + rewrite loadVersions_loop_skip.
      * intros [Hmono Hall]%IH. split; [done|].
        intros f [->|Hin]%elem_of_cons Hfd Hfs; [|by apply Hall].
        destruct Hn. by split.
      * destruct (IsDir file); [right|by left].
        apply not_and_l in Hn as [?|?]; [done|lia].
Qed.

Section ScanMore.
Variable regexp_MustCompile : string → option Regexp.

(** X3.  A scan is all or nothing: when [loadVersions] returns, under
    every directory of the listing whose name matched an executable was
    found and its capture is a key of the mapping, and the scan has written
    nothing (the notice about a missing executable included). *)
Theorem loadVersions_all_or_nothing (config : Config) (w w' : World)
    (m : gmap string string) :
  ProgramDir config ≠ "" →
  loadVersions regexp_MustCompile config w = (Ret m, w') →
  w' = w ∧
  ∃ r files,
    regexp_MustCompile (DirPattern config) = Some r ∧
    ioutil_ReadDir (ProgramDir config) w = inr files ∧
    ∀ file, file ∈ files → IsDir file = true → 2 ≤ length (r (Name file)) →
      ∃ key exe,
        r (Name file) !! 1 = Some key ∧ is_Some (m !! key) ∧
        deepFind (path_Join (ProgramDir config) (Name file)) "Unity.exe" w =
          (Ret exe, w).
Proof.
  intros Hdir Hl.
  pose proof (loadVersions_world regexp_MustCompile _ _ _ _ Hdir Hl) as Hw.
  simpl in Hw. split; [done|]. revert Hl. rewrite loadVersions_unfold.
  destruct (regexp_MustCompile (DirPattern config)) as [r|]; [|done].
  destruct (ioutil_ReadDir (ProgramDir config) w) as [err|files]; [done|].
  intros [_ Hall]%loadVersions_loop_complete; [|done]. by exists r, files.
Qed.

(** X4.  When several directories yield the same version, the one that
    comes last in the listing wins: the value of a key is the executable
    found under the last directory whose capture is that key. *)
Theorem loadVersions_last_directory_wins (config : Config) (w w' : World)
    (m : gmap string string) (r : Regexp) (before after : list FileInfo)
    (file : FileInfo) (key : string) :
  ProgramDir config ≠ "" →
  regexp_MustCompile (DirPattern config) = Some r →
  ioutil_ReadDir (ProgramDir config) w = inr (before ++ file :: after) →
  loadVersions regexp_MustCompile config w = (Ret m, w') →
  IsDir file = true →
  r (Name file) !! 1 = Some key →
  (∀ f, f ∈ after → IsDir f = true → r (Name f) !! 1 ≠ Some key) →
  ∃ exe,
    deepFind (path_Join (ProgramDir config) (Name file)) "Unity.exe" w =
      (Ret exe, w) ∧
    m !! key = Some exe.
Proof.
  intros Hdir Hr Hfiles Hl Hd Hk Hafter. revert Hl.
  rewrite loadVersions_unfold, Hr, Hfiles, loadVersions_loop_app.
  destruct (loadVersions_loop config r before ∅ w) as [[versions1|msg] w1] eqn:Hb;
    [|done].
  apply loadVersions_loop_world in Hb; [|done]. simpl in Hb. subst w1.
  destruct (capture_default _ _ Hk) as [Hdef Hlen].
  rewrite loadVersions_loop_match by done.
  destruct (deepFind _ _ w) as [[exe|msg] w1] eqn:Hf; [|done].
  pose proof (deepFind_never_empty _ _ _ _ _
                (path_Join_nonempty _ (Name file) Hdir) Hf) as Hexe.
  pose proof (deepFind_world _ _ _ _ _ Hf) as Hw. simpl in Hw. subst w1.
  rewrite decide_False by done. rewrite Hdef.
  intros Hl. exists exe. split; [done|].
  rewrite (loadVersions_loop_preserves _ _ key _ Hafter _ _ _ _ Hl).
  apply lookup_insert_eq.
Qed.
End ScanMore.

Lemma loadVersions_all_or_nothing_witness :
  loadVersions sample_MustCompile defaultConfig w_installed =
    (Ret versions_installed, w_installed) ∧
  ∃ key exe,
    unity_dir_re "Unity5.6.1f1" !! 1 = Some key ∧
    is_Some (versions_installed !! key) ∧
    deepFind (path_Join (ProgramDir defaultConfig) "Unity5.6.1f1") "Unity.exe"
      w_installed = (Ret exe, w_installed).
Proof.
  assert (loadVersions sample_MustCompile defaultConfig w_installed =
            (Ret versions_installed, w_installed)) as Hl
    by (vm_compute; reflexivity).
  split; [exact Hl|].
  destruct (loadVersions_all_or_nothing sample_MustCompile defaultConfig
              w_installed w_installed versions_installed) as (_ & r & files & Hr & Hf & Hall);
    [done|exact Hl|].
  injection Hr as <-. injection Hf as <-.
  apply (Hall (mkInfo "Unity5.6.1f1" true)).
  - right; right; left.
  - reflexivity.
  - vm_compute. lia.
Defined.

Lemma loadVersions_last_directory_wins_witness :
  ∃ exe,
    deepFind (path_Join (ProgramDir config_major) "Unity5.6.1f1") "Unity.exe"
      w_fives = (Ret exe, w_fives) ∧
    (list_to_map [("5", exe56)] : gmap string string) !! "5" = Some exe.
Proof.
  apply (loadVersions_last_directory_wins major_MustCompile config_major
           w_fives w_fives _ unity5_re [mkInfo "Unity5.5.0f1" true]
           [] (mkInfo "Unity5.6.1f1" true) "5").
  - done.
  - reflexivity.
  - vm_compute. reflexivity.
  - vm_compute. reflexivity.
  - reflexivity.
  - reflexivity.
  - intros f Hin. by apply elem_of_nil in Hin.
Defined.

(** ** initialize, main and openProject *)

Lemma getProjectVersion_world projectPath w r w' :
  getProjectVersion projectPath w = (r, w') →
  w' = match r with Ret _ => w | Fatal msg => add_stderr msg w end.
Proof.
  destruct (w_file w (versionFile projectPath)) as [|err|data] eqn:Hf.
  - rewrite getProjectVersion_absent by done. by intros [= <- <-].
  - unfold getProjectVersion, isExists, ioutil_ReadFile.
    fold (versionFile projectPath). rewrite Hf. by intros [= <- <-].
  - rewrite (getProjectVersion_content _ _ data) by done.
    destruct (versionPattern_FindSubmatch data) as [|s0 [|s1 s]];
      by intros [= <- <-].
Qed.

Lemma openProject_outcomes config path w r w' :
  openProject config path w = (r, w') →
  (r = Ret tt ∧ ∃ version exe,
     getProjectVersion path w = (Ret version, w) ∧
     Versions config !! version = Some exe ∧
     w_start w exe ["-projectPath"; path] = None ∧
     w' = add_started exe ["-projectPath"; path] w) ∨
  (∃ msg, r = Fatal msg ∧ w' = add_stderr msg w).
Proof.
  unfold openProject, bind.
  destruct (getProjectVersion path w) as [[version|msg] w1] eqn:Hv.
  - apply getProjectVersion_world in Hv as Hw. simpl in Hw. subst w1.
    destruct (Versions config !! version) as [exe|] eqn:Hl.
    + unfold cmd_Start.
      destruct (w_start w exe ["-projectPath"; path]) as [err|] eqn:Hs.
      * intros [= <- <-]. right. by exists err.
      * intros [= <- <-]. left. split; [done|]. by exists version, exe.
    + intros [= <- <-]. right. by eexists.
  - apply getProjectVersion_world in Hv as Hw. simpl in Hw. subst w1.
    intros [= <- <-]. right. by exists msg.
Qed.

(** X5.  [openProject] has two outcomes only.  It returns after starting
    exactly one process, the executable the mapping holds for the version
    of the project, with the arguments -projectPath and the project path;
    or it ends the run with one line on the standard error stream and
    starts nothing.  The persisted configuration is never touched. *)
Theorem openProject_starts_one_or_none (config : Config) (path : string)
    (w w' : World) (r : result unit) :
  openProject config path w = (r, w') →
  w_config w' = w_config w ∧
  ((r = Ret tt ∧ w_stderr w' = w_stderr w ∧
    ∃ version exe,
      getProjectVersion path w = (Ret version, w) ∧
      Versions config !! version = Some exe ∧
      w_started w' = w_started w ++ [(exe, ["-projectPath"; path])]) ∨
   (∃ msg, r = Fatal msg ∧ w_started w' = w_started w ∧
           w_stderr w' = w_stderr w ++ [msg])).
Proof.
  intros [[-> (version & exe & Hv & Hl & _ & ->)]|(msg & -> & ->)]%openProject_outcomes.
  - split; [done|]. left. do 2 (split; [done|]). by exists version, exe.
  - split; [done|]. right. by exists msg.
Qed.

Lemma openProject_starts_one_or_none_witness :
  w_started (openProject config_installed "C:/proj" w_rebuilt).2 =
    [(exe56, ["-projectPath"; "C:/proj"])] ∧
  w_config (openProject config_installed "C:/proj" w_rebuilt).2 = w_config w_rebuilt.
Proof.
  destruct (openProject_starts_one_or_none config_installed "C:/proj" w_rebuilt
              (openProject config_installed "C:/proj" w_rebuilt).2
              (openProject config_installed "C:/proj" w_rebuilt).1)
    as [Hc _]; [by destruct (openProject _ _ _)|].
  split; [vm_compute; reflexivity|exact Hc].
Defined.

Lemma print_versions_printed config keys w :
  print_versions config keys w = (Ret tt, printed (version_line config <$> keys) w).
Proof.
  revert w. induction keys as [|ver keys IH]; intros w; [done|].
  simpl. unfold bind, fmt_Println. by rewrite IH.
Qed.

Lemma printed_fields lines w :
  w_stdout (printed lines w) = w_stdout w ++ lines ∧
  w_stderr (printed lines w) = w_stderr w ∧
  w_started (printed lines w) = w_started w ∧
  w_config (printed lines w) = w_config w.
Proof.
  revert w. induction lines as [|line lines IH]; intros w; simpl.
  - by rewrite app_nil_r.
  - destruct (IH (add_stdout line w)) as (-> & -> & -> & ->). simpl.
    by rewrite <- app_assoc.
Qed.

Section MainMore.
Variable regexp_MustCompile : string → option Regexp.
Variable toml_Encode : Config → string.
Variable toml_Decode : string → option Config.

Lemma initialize_started w res w' :
  initialize regexp_MustCompile toml_Encode w = (res, w') →
  w_started w' = w_started w.
Proof.
  rewrite initialize_cases.
  destruct (loadVersions regexp_MustCompile defaultConfig w)
    as [[versions|msg] w1] eqn:Hl;
    (apply loadVersions_world in Hl as ->; [|done]).
  - rewrite output_cases.
    destruct (w_create w), (w_write w) as [[n err]|]; try case_decide;
      by intros [= <- <-].
  - by intros [= <- <-].
Qed.

Lemma startup_started reload w res w' :
  startup regexp_MustCompile toml_Encode toml_Decode reload w = (res, w') →
  w_started w' = w_started w.
Proof.
  unfold startup. destruct reload; [apply initialize_started|].
  destruct (toml_DecodeFile toml_Decode w); [by intros [= <- <-]|].
  apply initialize_started.
Qed.

(** X6.  A rebuild does not look at what is stored: the configuration it
    returns has the root and the pattern of [defaultConfig] whatever the
    file held, a second rebuild right after it returns the same
    configuration and leaves the same file, and so does a rebuild started
    from any other stored content. *)
Theorem initialize_ignores_storage (w w' : World) (config : Config) :
  initialize regexp_MustCompile toml_Encode w = (Ret config, w') →
  ProgramDir config = ProgramDir defaultConfig ∧
  DirPattern config = DirPattern defaultConfig ∧
  initialize regexp_MustCompile toml_Encode w' = (Ret config, w') ∧
  ∀ stored,
    initialize regexp_MustCompile toml_Encode (set_config stored w) = (Ret config, w').
Proof.
  intros Hi.
  assert (∀ stored,
            initialize regexp_MustCompile toml_Encode (set_config stored w) =
              (Ret config, w')) as Hany.
  { intros stored.
    pose proof (initialize_set_config regexp_MustCompile toml_Encode stored w) as Hs.
    rewrite Hi in Hs. simpl in Hs.
    destruct (initialize regexp_MustCompile toml_Encode (set_config stored w))
      as [res w2] eqn:Hi2. simpl in Hs. subst res.
    apply initialize_Ret in Hi2 as ->. by apply initialize_Ret in Hi as ->. }
  split; [|split; [|split; [|done]]].
  - revert Hi. rewrite initialize_cases.
    destruct (loadVersions _ _ _) as [[versions|msg] w1]; [|done].
    destruct (output _ _ _) as [[[]|msg] w2]; [|done]. by intros [= <- _].
  - revert Hi. rewrite initialize_cases.
    destruct (loadVersions _ _ _) as [[versions|msg] w1]; [|done].
    destruct (output _ _ _) as [[[]|msg] w2]; [|done]. by intros [= <- _].
  - pose proof (initialize_Ret _ _ _ _ _ Hi) as Hw.
    pose proof (Hany (Content (toml_Encode config))) as Hagain.
    by rewrite <- Hw in Hagain.
Qed.

(** X7.  In list mode [main] prints one line per key of the mapping, the
    key, a colon between spaces and the path mapped to it, in the order of
    [getVersionKeys], and nothing else happens after the configuration is
    there: no process is started, no project is asked for, nothing goes to
    the standard error stream and the storage stays as it is. *)
Theorem main_list_prints_versions (os_Args : list string) (reload : bool)
    (w w1 : World) (config : Config) :
  startup regexp_MustCompile toml_Encode toml_Decode reload w = (Ret config, w1) →
  ∃ w2,
    main regexp_MustCompile toml_Encode toml_Decode os_Args reload true w =
      (Ret tt, w2) ∧
    w_stdout w2 = w_stdout w1 ++ (version_line config <$> getVersionKeys config) ∧
    w_stderr w2 = w_stderr w1 ∧
    w_started w2 = w_started w ∧
    w_config w2 = w_config w1 ∧
    length (version_line config <$> getVersionKeys config) = size (Versions config) ∧
    ∀ ver, ver ∈ getVersionKeys config →
      ∃ exe, Versions config !! ver = Some exe ∧
             version_line config ver = ver +:+ " : " +:+ exe.
Proof.
  intros Hs. exists (printed (version_line config <$> getVersionKeys config) w1).
  destruct (printed_fields (version_line config <$> getVersionKeys config) w1)
    as (Hout & Herr & Hst & Hcfg).
  split.
  { unfold main, bind. rewrite Hs. apply print_versions_printed. }
  do 2 (split; [done|]).
  split; [by rewrite Hst, (startup_started _ _ _ _ Hs)|]. split; [done|].
  assert (getVersionKeys config ≡ₚ (map_to_list (Versions config)).*1) as Hperm.
  { unfold getVersionKeys. rewrite getVersionKeys_range_filter.
    rewrite !sort_Strings_Permutation, Permutation_app_comm.
    apply filter_app_complement. }
  split.
  - rewrite length_fmap, Hperm, length_fmap. apply length_map_to_list.
  - intros ver Hin. rewrite Hperm in Hin. apply elem_of_keys in Hin as [exe Hexe].
    exists exe. split; [done|]. unfold version_line. by rewrite Hexe.
Qed.

(** X12.  A rebuild that fails writes its message as one line to the
    standard error stream, starts nothing, and leaves the stored file as
    it was, with one exception: when the file was created and the write
    into it failed, the scan had succeeded and the stored file holds the
    bytes written before the failure, a proper prefix of the document of
    the rebuilt configuration. *)
Theorem initialize_failure_storage (w w' : World) (msg : string) :
  initialize regexp_MustCompile toml_Encode w = (Fatal msg, w') →
  w_stderr w' = w_stderr w ++ [msg] ∧
  w_started w' = w_started w ∧
  (w_config w' = w_config w ∨
   ∃ versions n stored,
     loadVersions regexp_MustCompile defaultConfig w = (Ret versions, w) ∧
     w_create w = None ∧ w_write w = Some (n, msg) ∧
     w_config w' = Content stored ∧
     String.prefix stored (toml_Encode (rebuilt versions)) = true ∧
     String.length stored = n ∧
     n < String.length (toml_Encode (rebuilt versions))).
Proof.
  intros Hi. split; [exact (initialize_stderr _ _ _ _ _ Hi)|].
  split; [exact (initialize_started _ _ _ Hi)|].
  revert Hi. rewrite initialize_cases.
  destruct (loadVersions regexp_MustCompile defaultConfig w)
    as [[versions|msg1] w1] eqn:Hl;
    (apply loadVersions_world in Hl as Hw; [|done]); subst w1.
  - rewrite output_cases.
    destruct (w_create w) as [err|] eqn:Hc; [intros [= <- <-]; by left|].
    destruct (w_write w) as [[n err]|] eqn:Hwr; [|done].
    case_decide as Hlen; [|done].
    intros [= <- <-]. right.
    exists versions, n, (String.substring 0 n (toml_Encode (rebuilt versions))).
    do 4 (split; [done|]).
    split; [apply substring_prefix|]. split; [|done].
    apply substring_length. lia.
  - intros [= <- <-]. by left.
Qed.
End MainMore.

Lemma initialize_ignores_storage_witness :
  initialize sample_MustCompile sample_Encode w_installed =
    (Ret config_installed, w_rebuilt) ∧
  initialize sample_MustCompile sample_Encode w_rebuilt =
    (Ret config_installed, w_rebuilt) ∧
  initialize sample_MustCompile sample_Encode
      (set_config (Content "ProgramDir = 7") w_installed) =
    (Ret config_installed, w_rebuilt).
Proof.
  assert (initialize sample_MustCompile sample_Encode w_installed =
            (Ret config_installed, w_rebuilt)) as Hi by (vm_compute; reflexivity).
  split; [exact Hi|].
  destruct (initialize_ignores_storage sample_MustCompile sample_Encode _ _ _ Hi)
    as (_ & _ & Hagain & Hany).
  split; [exact Hagain|apply Hany].
Defined.

Lemma main_list_prints_versions_witness :
  startup sample_MustCompile sample_Encode sample_Decode false w_rebuilt =
    (Ret config_installed, w_rebuilt) ∧
  ∃ w2,
    main sample_MustCompile sample_Encode sample_Decode ["uvs"; "--list"] false true
        w_rebuilt = (Ret tt, w2) ∧
    w_stdout w2 =
      ["5.6.1f1 : C:\Program Files\Unity5.6.1f1\Editor\Unity.exe";
       "2019.4.1f1 : C:\Program Files\Unity2019.4.1f1\Editor\Unity.exe"] ∧
    w_started w2 = [].
Proof.
  assert (startup sample_MustCompile sample_Encode sample_Decode false w_rebuilt =
            (Ret config_installed, w_rebuilt)) as Hs by (vm_compute; reflexivity).
  split; [exact Hs|].
  destruct (main_list_prints_versions sample_MustCompile sample_Encode sample_Decode
              ["uvs"; "--list"] false _ _ _ Hs)
    as (w2 & Hm & Hout & _ & Hst & _).
  exists w2. split; [exact Hm|]. split; [|exact Hst].
  rewrite Hout. vm_compute. reflexivity.
Defined.

Lemma initialize_failure_storage_witness :
  initialize sample_MustCompile sample_Encode w_disk_full =
    (Fatal "There is not enough space on the disk.",
     add_stderr "There is not enough space on the disk."
       (set_config (Content "ProgramDir") w_disk_full)) ∧
  w_config w_disk_full = Content (sample_Encode config_installed) ∧
  ∃ versions n stored,
    loadVersions sample_MustCompile defaultConfig w_disk_full =
      (Ret versions, w_disk_full) ∧
    w_write w_disk_full = Some (n, "There is not enough space on the disk.") ∧
    Content "ProgramDir" = Content stored ∧
    String.prefix stored (sample_Encode (rebuilt versions)) = true ∧
    n < String.length (sample_Encode (rebuilt versions)).
Proof.
  assert (initialize sample_MustCompile sample_Encode w_disk_full =
            (Fatal "There is not enough space on the disk.",
             add_stderr "There is not enough space on the disk."
               (set_config (Content "ProgramDir") w_disk_full)))
    as Hi by (vm_compute; reflexivity).
  split; [exact Hi|]. split; [reflexivity|].
  destruct (initialize_failure_storage sample_MustCompile sample_Encode _ _ _ Hi)
    as (_ & _ & [Hsame|(versions & n & stored & Hl & _ & Hw & Hc & Hp & _ & Hn)]).
  - discriminate Hsame.
  - exists versions, n, stored.
    split; [exact Hl|]. split; [exact Hw|]. split; [exact Hc|].
    split; [exact Hp|exact Hn].
Defined.

(** ** getRecentProjects and askProject *)

Lemma drop_last_snoc val :
  val ≠ "" → ∃ last, val = Prompt.drop_last val +:+ String last "".
Proof.
  induction val as [|c val IH]; [done|]. intros _.
  destruct val as [|d val]; [by exists c|].
  destruct IH as [last Hlast]; [done|]. exists last.
  change (Prompt.drop_last (String c (String d val)))
    with (String c (Prompt.drop_last (String d val))).
  by rewrite append_cons, <- Hlast.
Qed.

Lemma drop_last_app path last : Prompt.drop_last (path +:+ String last "") = path.
Proof.
  induction path as [|c path IH]; [done|]. rewrite append_cons.
  change (Prompt.drop_last (String c (path +:+ String last "")))
    with (match path +:+ String last "" with
          | "" => ""
          | _ => String c (Prompt.drop_last (path +:+ String last ""))
          end).
  rewrite IH. by destruct path.
Qed.

Lemma getRecentProjects_loop_Ret k names :
  ∀ r w r' w',
    Prompt.getRecentProjects_loop k names r w = (Ret r', w') →
    w' = w ∧ ∃ paths,
      r' = r ++ paths ∧
      Forall2 (λ name path,
                 ∃ last, Prompt.GetBinaryValue k name = inr (path +:+ String last ""))
        (recent_names names) paths.
Proof.
  induction names as [|name names IH]; intros r w r' w'.
  - intros [= <- <-]. split; [done|]. exists []. by rewrite app_nil_r.
  - simpl. unfold recent_names.
    destruct (strings_HasPrefix name "RecentlyUsedProjectPaths") eqn:Hp; simpl.
    + rewrite filter_cons_True by done.
      destruct (Prompt.GetBinaryValue k name) as [err|val] eqn:Hval; [done|].
      destruct val as [|c val]; [done|].
      intros (-> & paths & -> & Hall)%IH. split; [done|].
      exists (Prompt.drop_last (String c val) :: paths).
      split; [by rewrite <- app_assoc|].
      constructor; [|done].
      destruct (drop_last_snoc (String c val)) as [last Hlast]; [done|].
      exists last. by rewrite <- Hlast.
    + rewrite filter_cons_False by (by rewrite Hp). apply IH.
Qed.

Lemma getRecentProjects_world c w r w' :
  Prompt.getRecentProjects c w = (Ret r, w') → w' = w.
Proof.
  unfold Prompt.getRecentProjects, log_Fatal.
  destruct (Prompt.OpenKey c) as [err|k]; [done|].
  destruct (Prompt.ReadValueNames k) as [err|names]; [done|].
  by intros (-> & _)%getRecentProjects_loop_Ret.
Qed.

(** X9.  When [getRecentProjects] returns, it has written nothing, and
    its result lists, in the order of the registry, one path for each value
    whose name begins with RecentlyUsedProjectPaths and for no other value:
    the bytes of that value without the last one, so every such value was
    readable and not empty. *)
Theorem getRecentProjects_lists_recent_values (c : Prompt.Console) (w w' : World)
    (r : list string) :
  Prompt.getRecentProjects c w = (Ret r, w') →
  w' = w ∧
  ∃ k names,
    Prompt.OpenKey c = inr k ∧
    Prompt.ReadValueNames k = inr names ∧
    Forall2 (λ name path,
               ∃ last, Prompt.GetBinaryValue k name = inr (path +:+ String last ""))
      (recent_names names) r.
Proof.
  unfold Prompt.getRecentProjects, log_Fatal.
  destruct (Prompt.OpenKey c) as [err|k] eqn:Hk; [done|].
  destruct (Prompt.ReadValueNames k) as [err|names] eqn:Hnames; [done|].
  intros (-> & paths & -> & Hall)%getRecentProjects_loop_Ret.
  split; [done|]. by exists k, names.
Qed.

Lemma getRecentProjects_sample text w :
  Prompt.getRecentProjects (Prompt.sample_console text) w =
    (Ret ["C:/proj"; "D:/game"; "D:/demo"], w).
Proof. reflexivity. Qed.

Lemma getRecentProjects_lists_recent_values_witness :
  Forall2 (λ name path,
             ∃ last, Prompt.GetBinaryValue Prompt.sample_key name =
                       inr (path +:+ String last ""))
    ["RecentlyUsedProjectPaths-0"; "RecentlyUsedProjectPaths-1";
     "RecentlyUsedProjectPaths-2"]
    ["C:/proj"; "D:/game"; "D:/demo"].
Proof.
  destruct (getRecentProjects_lists_recent_values (Prompt.sample_console "1")
              w_installed w_installed ["C:/proj"; "D:/game"; "D:/demo"]
              (getRecentProjects_sample "1" w_installed))
    as (_ & k & names & Hk & Hnames & Hall).
  injection Hk as <-. injection Hnames as <-. exact Hall.
Defined.

Lemma digit_of_pretty_char d :
  (d < 10)%N → strconv.digit_of (pretty.pretty_N_char d) = Some d.
Proof.
  intros Hd. assert (∃ n, d = N.of_nat n ∧ n < 10) as (n & -> & Hn).
  { exists (N.to_nat d). lia. }
  do 10 (destruct n as [|n]; [done|]). lia.
Qed.

Lemma ParseUint_digit c s n d :
  strconv.digit_of c = Some d →
  (n < strconv.cutoff_uint64)%N → (n * 10 + d ≤ strconv.maxUint64)%N →
  strconv.ParseUint (String c s) n = strconv.ParseUint s (n * 10 + d).
Proof.
  intros Hd Hn Hmax. cbn [strconv.ParseUint]. rewrite Hd.
  rewrite decide_False by lia. by rewrite decide_False by lia.
Qed.

Lemma ParseUint_pretty_go x :
  (0 < x)%N → (x ≤ strconv.maxUint64)%N →
  ∀ s, strconv.ParseUint (pretty.pretty_N_go x s) 0 = strconv.ParseUint s x ∧
       ∃ c rest, pretty.pretty_N_go x s = String c rest ∧
                 is_Some (strconv.digit_of c).
Proof.
  induction (N.lt_wf_0 x) as [x _ IH]. intros Hpos Hmax s.
  rewrite pretty.pretty_N_go_step by done.
  assert (x `mod` 10 < 10)%N as Hmod by (apply N.mod_lt; lia).
  assert (x = 10 * x `div` 10 + x `mod` 10)%N as Hdiv by (apply N.div_mod; lia).
  pose proof (digit_of_pretty_char (x `mod` 10)%N Hmod) as Hdigit.
  assert (x `div` 10 * 10 + x `mod` 10 = x)%N as Hback by lia.
  assert (x `div` 10 < strconv.cutoff_uint64)%N as Hcut.
  { unfold strconv.cutoff_uint64, strconv.maxUint64 in *. clear Hback.
    remember (x `div` 10)%N as q eqn:Hq. remember (x `mod` 10)%N as r eqn:Hr.
    clear Hq Hr IH Hdigit. lia. }
  destruct (decide (x `div` 10 = 0)%N) as [Hz|Hnz].
  - rewrite Hz, pretty.pretty_N_go_0. split.
    + rewrite (ParseUint_digit _ _ _ (x `mod` 10)%N);
        [f_equal; lia|done|done|unfold strconv.maxUint64; lia].
    + eexists _, _. split; [done|]. rewrite Hdigit. by eexists.
  - destruct (IH (x `div` 10)%N) with
      (s := String (pretty.pretty_N_char (x `mod` 10)) s) as [Hparse Hhead].
    + apply N.div_lt; lia.
    + lia.
    + etrans; [|exact Hmax]. apply N.Div0.div_le_upper_bound. lia.
    + split; [|done]. rewrite Hparse.
      rewrite (ParseUint_digit _ _ _ (x `mod` 10)%N);
        [by rewrite Hback|done|done|by rewrite Hback].
Qed.

Lemma digit_not_sign c :
  is_Some (strconv.digit_of c) → Ascii.eqb c "-" = false ∧ Ascii.eqb c "+" = false.
Proof.
  intros [d Hd]. unfold strconv.digit_of in Hd. case_decide as Hb; [|done].
  destruct Hb as [Hb _].
  split; apply Ascii.eqb_neq; intros ->; exfalso; by apply Hb.
Qed.

Lemma strconv_Atoi_digits c rest un :
  is_Some (strconv.digit_of c) →
  strconv.ParseUint (String c rest) 0 = inl un →
  (un < strconv.cutoff_int64)%N →
  strconv.Atoi (String c rest) = strconv.AtoiOk (Z.of_N un).
Proof.
  intros Hc Hparse Hun. destruct (digit_not_sign c Hc) as [Hminus Hplus].
  unfold strconv.Atoi. rewrite Hminus, Hplus.
  change (false || false) with false. cbv beta iota zeta.
  rewrite Hparse. by rewrite bool_decide_eq_false_2 by lia.
Qed.

(** [strconv.Atoi] reads back the decimal form of an index. *)
Lemma strconv_Atoi_pretty (i : nat) :
  (Z.of_nat i < 2 ^ 63)%Z →
  strconv.Atoi (pretty.pretty i) = strconv.AtoiOk (Z.of_nat i).
Proof.
  intros Hi. unfold pretty.pretty, pretty.pretty_nat, pretty.pretty, pretty.pretty_N.
  case_decide as Hz.
  - assert (i = 0) as -> by lia. done.
  - destruct (ParseUint_pretty_go (N.of_nat i)) with (s := "")
      as (Hparse & c & rest & Hs & Hc).
    + lia.
    + unfold strconv.maxUint64. lia.
    + rewrite Hs in Hparse |- *.
      rewrite (strconv_Atoi_digits c rest (N.of_nat i)); [f_equal; lia|done|done|].
      unfold strconv.cutoff_int64. lia.
Qed.

Lemma print_menu_logged recents :
  ∀ i w, Prompt.print_menu i recents w = (Ret tt, logged (menu_lines i recents) w).
Proof.
  induction recents as [|path recents IH]; intros i w; [done|].
  change (Prompt.print_menu i (path :: recents) w)
    with (Prompt.print_menu (S i) recents
            (add_stderr (pretty.pretty i +:+ " : " +:+ path) w)).
  by rewrite IH.
Qed.

Lemma logged_app lines1 lines2 w :
  logged (lines1 ++ lines2) w = logged lines2 (logged lines1 w).
Proof. apply foldl_app. Qed.

Lemma logged_fields lines w :
  w_stderr (logged lines w) = w_stderr w ++ lines ∧
  w_stdout (logged lines w) = w_stdout w ∧
  w_started (logged lines w) = w_started w ∧
  w_config (logged lines w) = w_config w.
Proof.
  revert w. induction lines as [|line lines IH]; intros w.
  - by rewrite app_nil_r.
  - destruct (IH (add_stderr line w)) as (Herr & Hout & Hst & Hcfg).
    change (logged (line :: lines) w) with (logged lines (add_stderr line w)).
    rewrite Herr, Hout, Hst, Hcfg. simpl. by rewrite <- app_assoc.
Qed.

Lemma menu_lines_lookup recents :
  ∀ i j p, recents !! j = Some p →
    menu_lines i recents !! j = Some (pretty.pretty (i + j) +:+ " : " +:+ p).
Proof.
  induction recents as [|path recents IH]; intros i j p; [done|].
  destruct j as [|j]; simpl.
  - intros [= ->]. by rewrite Nat.add_0_r.
  - intros Hj. rewrite (IH (S i) j p Hj). do 3 f_equal. lia.
Qed.

Section AskMore.
Variable strconv_Atoi : string → strconv.atoi_result.
Variable strconv_Quote : string → string.

(** The menu of [askProject] and the prompt after it. *)
Lemma askProject_cases c w recents :
  Prompt.getRecentProjects c w = (Ret recents, w) →
  Prompt.askProject strconv_Atoi strconv_Quote c w =
    let w1 := logged (menu_lines 0 recents ++ [String LF "> "]) w in
    match strconv_Atoi (Prompt.stdin_Text c) with
    | strconv.AtoiSyntax =>
        log_Fatal (Prompt.NumError_text strconv_Quote (Prompt.stdin_Text c) false) w1
    | strconv.AtoiRange =>
        log_Fatal (Prompt.NumError_text strconv_Quote (Prompt.stdin_Text c) true) w1
    | strconv.AtoiOk index =>
        if decide (index < 0 ∨ Z.of_nat (length recents) ≤ index)%Z
        then log_Fatal "The index is out of range" w1
        else (Ret (default "" (recents !! Z.to_nat index)), w1)
    end.
Proof.
  intros Hr. unfold Prompt.askProject, bind. rewrite Hr, print_menu_logged.
  unfold Prompt.builtin_print, log_Println. rewrite logged_app.
  change (logged [String LF "> "] (logged (menu_lines 0 recents) w))
    with (add_stderr (String LF "> ") (logged (menu_lines 0 recents) w)).
  cbv zeta. destruct (strconv_Atoi (Prompt.stdin_Text c)); [|done|done].
  by case_decide.
Qed.

(** X10.  When [askProject] returns, the registry gave a list of recent
    projects, the text read from the standard input is a number that is an
    index of that list, the result is the entry at that index, and what
    was written is the menu, one line per entry, and the prompt. *)
Theorem askProject_returns_listed_entry (c : Prompt.Console) (w w' : World)
    (p : string) :
  Prompt.askProject strconv_Atoi strconv_Quote c w = (Ret p, w') →
  ∃ recents index,
    Prompt.getRecentProjects c w = (Ret recents, w) ∧
    strconv_Atoi (Prompt.stdin_Text c) = strconv.AtoiOk (Z.of_nat index) ∧
    recents !! index = Some p ∧
    w' = logged (menu_lines 0 recents ++ [String LF "> "]) w ∧
    w_stderr w' = w_stderr w ++ menu_lines 0 recents ++ [String LF "> "] ∧
    w_started w' = w_started w.
Proof.
  intros Ha.
  destruct (Prompt.getRecentProjects c w) as [[recents|msg] w0] eqn:Hr.
  2:{ unfold Prompt.askProject, bind in Ha. by rewrite Hr in Ha. }
  pose proof (getRecentProjects_world _ _ _ _ Hr) as ->.
  rewrite (askProject_cases _ _ _ Hr) in Ha. cbv zeta in Ha.
  destruct (strconv_Atoi (Prompt.stdin_Text c)) as [index| |]; [|done|done].
  case_decide as Hi; [done|]. injection Ha as <- <-.
  exists recents, (Z.to_nat index).
  destruct (logged_fields (menu_lines 0 recents ++ [String LF "> "]) w)
    as (Herr & _ & Hst & _).
  split; [done|]. split; [f_equal; lia|].
  split; [|done].
  destruct (lookup_lt_is_Some_2 recents (Z.to_nat index)) as [q Hq]; [lia|].
  by rewrite Hq.
Qed.
End AskMore.

Lemma askProject_returns_listed_entry_witness :
  Prompt.askProject strconv.Atoi Prompt.sample_Quote (Prompt.sample_console "1")
      w_installed =
    (Ret "D:/game",
     logged ["0 : C:/proj"; "1 : D:/game"; "2 : D:/demo"; String LF "> "] w_installed) ∧
  ∃ (recents : list string) (index : nat),
    strconv.Atoi "1" = strconv.AtoiOk (Z.of_nat index) ∧
    recents !! index = Some "D:/game".
Proof.
  assert (Prompt.askProject strconv.Atoi Prompt.sample_Quote (Prompt.sample_console "1")
            w_installed =
            (Ret "D:/game",
             logged ["0 : C:/proj"; "1 : D:/game"; "2 : D:/demo"; String LF "> "]
               w_installed)) as Ha by (vm_compute; reflexivity).
  split; [exact Ha|].
  destruct (askProject_returns_listed_entry strconv.Atoi Prompt.sample_Quote _ _ _ _ Ha)
    as (recents & index & _ & Hatoi & Hp & _).
  by exists recents, index.
Defined.

(** X11.  Typing the number the menu shows in front of a path selects that
    path: when the text read from the standard input is the decimal form
    of an index of the list of recent projects, [askProject] returns the
    entry at that index, whose menu line begins with that number. *)
Theorem askProject_typed_number (strconv_Quote : string → string)
    (c : Prompt.Console) (w : World) (recents : list string) (i : nat) (p : string) :
  Prompt.getRecentProjects c w = (Ret recents, w) →
  recents !! i = Some p →
  Prompt.stdin_Text c = pretty.pretty i →
  (Z.of_nat i < 2 ^ 63)%Z →
  Prompt.askProject strconv.Atoi strconv_Quote c w =
    (Ret p, logged (menu_lines 0 recents ++ [String LF "> "]) w) ∧
  menu_lines 0 recents !! i = Some (pretty.pretty i +:+ " : " +:+ p).
Proof.
  intros Hr Hp Htext Hi. split; [|exact (menu_lines_lookup recents 0 i p Hp)].
  rewrite (askProject_cases _ _ _ _ _ Hr). cbv zeta.
  rewrite Htext, strconv_Atoi_pretty by done.
  apply lookup_lt_Some in Hp as Hlen.
  rewrite decide_False by lia. by rewrite Nat2Z.id, Hp.
Qed.

Lemma askProject_typed_number_witness :
  Prompt.getRecentProjects (Prompt.sample_console "2") w_installed =
    (Ret ["C:/proj"; "D:/game"; "D:/demo"], w_installed) ∧
  Prompt.askProject strconv.Atoi Prompt.sample_Quote (Prompt.sample_console "2")
      w_installed =
    (Ret "D:/demo",
     logged (menu_lines 0 ["C:/proj"; "D:/game"; "D:/demo"] ++ [String LF "> "])
       w_installed) ∧
  menu_lines 0 ["C:/proj"; "D:/game"; "D:/demo"] !! 2 = Some "2 : D:/demo".
Proof.
  split; [reflexivity|].
  apply (askProject_typed_number Prompt.sample_Quote (Prompt.sample_console "2")
           w_installed ["C:/proj"; "D:/game"; "D:/demo"] 2 "D:/demo");
    [reflexivity|reflexivity|reflexivity|lia].
Defined.

(** ** main: the process a run starts *)

Lemma getRecentProjects_loop_world k names :
  ∀ r w res w',
    Prompt.getRecentProjects_loop k names r w = (res, w') →
    w' = match res with Ret _ => w | Fatal msg => add_stderr msg w end.
Proof.
  induction names as [|name names IH]; intros r w res w'.
  - by intros [= <- <-].
  - simpl. destruct (negb _); [apply IH|].
    destruct (Prompt.GetBinaryValue k name) as [err|[|c val]].
    + by intros [= <- <-].
    + by intros [= <- <-].
    + apply IH.
Qed.

Lemma getRecentProjects_Fatal c w msg w' :
  Prompt.getRecentProjects c w = (Fatal msg, w') → w' = add_stderr msg w.
Proof.
  unfold Prompt.getRecentProjects.
  destruct (Prompt.OpenKey c) as [err|k]; [by intros [= <- <-]|].
  destruct (Prompt.ReadValueNames k) as [err|names]; [by intros [= <- <-]|].
  intros Hl. by apply getRecentProjects_loop_world in Hl.
Qed.

Section ProgramMore.
Variable regexp_MustCompile : string → option Regexp.
Variable toml_Encode : Config → string.
Variable toml_Decode : string → option Config.
Variable strconv_Atoi : string → strconv.atoi_result.
Variable strconv_Quote : string → string.

(** Whatever [askProject] does, it only writes to the standard error
    stream. *)
Lemma askProject_logged c w r w' :
  Prompt.askProject strconv_Atoi strconv_Quote c w = (r, w') →
  ∃ lines, w' = logged lines w.
Proof.
  destruct (Prompt.getRecentProjects c w) as [[recents|msg] w0] eqn:Hr.
  - pose proof (getRecentProjects_world _ _ _ _ Hr) as ->.
    rewrite (askProject_cases _ _ _ _ _ Hr). cbv zeta.
    set (lines := menu_lines 0 recents ++ [String LF "> "]).
    assert (∀ msg, log_Fatal (A := string) msg (logged lines w) =
                     (Fatal msg, logged (lines ++ [msg]) w)) as Hfatal.
    { intros msg. by rewrite logged_app. }
    destruct (strconv_Atoi (Prompt.stdin_Text c)) as [index| |].
    + case_decide.
      * rewrite Hfatal. intros [= <- <-]. by eexists.
      * intros [= <- <-]. by eexists.
    + rewrite Hfatal. intros [= <- <-]. by eexists.
    + rewrite Hfatal. intros [= <- <-]. by eexists.
  - unfold Prompt.askProject, bind. rewrite Hr. intros [= <- <-].
    apply getRecentProjects_Fatal in Hr as ->. by exists [msg].
Qed.

(** X8.  Whatever the arguments, the flags, the registry, the input and
    the world, a run of [main] starts at most one process; when it starts
    one the run returns, list mode is off, the project is the first
    argument, if there is one that does not begin with a dash, and else
    the path [askProject] returned, the version is the one read from that
    project, and the process is the executable the mapping of the run
    holds for that version, started with -projectPath and that project
    path. *)
Theorem main_starts_at_most_one (c : Prompt.Console) (os_Args : list string)
    (reload list : bool) (w w' : World) (r : result unit) :
  Prompt.main regexp_MustCompile toml_Encode toml_Decode strconv_Atoi strconv_Quote
    c os_Args reload list w = (r, w') →
  w_started w' = w_started w ∨
  ∃ config w1 w2 project version exe,
    startup regexp_MustCompile toml_Encode toml_Decode reload w = (Ret config, w1) ∧
    list = false ∧ r = Ret tt ∧
    ((Prompt.project_argument os_Args ≠ "" ∧
      project = Prompt.project_argument os_Args ∧ w2 = w1) ∨
     (Prompt.project_argument os_Args = "" ∧
      Prompt.askProject strconv_Atoi strconv_Quote c w1 = (Ret project, w2))) ∧
    getProjectVersion project w2 = (Ret version, w2) ∧
    Versions config !! version = Some exe ∧
    w' = add_started exe ["-projectPath"; project] w2 ∧
    w_started w' = w_started w ++ [(exe, ["-projectPath"; project])].
Proof.
  unfold Prompt.main, bind.
  destruct (startup _ _ _ reload w) as [[config|msg] w1] eqn:Hs.
  2:{ intros [= <- <-]. left. by apply startup_started in Hs. }
  pose proof (startup_started _ _ _ _ _ _ _ Hs) as Hst.
  destruct list.
  { rewrite print_versions_printed. intros [= <- <-]. left.
    by destruct (printed_fields (version_line config <$> getVersionKeys config) w1)
      as (_ & _ & -> & _). }
  assert (∀ project w2,
            w_started w2 = w_started w →
            (Prompt.project_argument os_Args ≠ "" ∧
             project = Prompt.project_argument os_Args ∧ w2 = w1) ∨
            (Prompt.project_argument os_Args = "" ∧
             Prompt.askProject strconv_Atoi strconv_Quote c w1 = (Ret project, w2)) →
            openProject config project w2 = (r, w') →
            w_started w' = w_started w ∨
            ∃ config0 w0 w3 project0 version exe,
              (Ret config, w1) = (Ret config0, w0) ∧ false = false ∧ r = Ret tt ∧
              ((Prompt.project_argument os_Args ≠ "" ∧
                project0 = Prompt.project_argument os_Args ∧ w3 = w0) ∨
               (Prompt.project_argument os_Args = "" ∧
                Prompt.askProject strconv_Atoi strconv_Quote c w0 =
                  (Ret project0, w3))) ∧
              getProjectVersion project0 w3 = (Ret version, w3) ∧
              Versions config0 !! version = Some exe ∧
              w' = add_started exe ["-projectPath"; project0] w3 ∧
              w_started w' = w_started w ++ [(exe, ["-projectPath"; project0])])
    as Hopen.
  { intros project w2 Hw2 Hproject
      [[-> (version & exe & Hv & Hl & _ & ->)]|(m & -> & ->)]%openProject_outcomes.
    - right. exists config, w1, w2, project, version, exe.
      do 6 (split; [done|]). split; [done|]. simpl. by rewrite Hw2.
    - by left. }
  case_decide as Harg.
  - destruct (Prompt.askProject strconv_Atoi strconv_Quote c w1)
      as [[project|msg] w2] eqn:Ha.
    + destruct (askProject_logged _ _ _ _ Ha) as [lines ->].
      intros Ho. apply (Hopen project (logged lines w1)); [|by right|done].
      destruct (logged_fields lines w1) as (_ & _ & -> & _). done.
    + destruct (askProject_logged _ _ _ _ Ha) as [lines ->].
      intros [= <- <-]. left.
      destruct (logged_fields lines w1) as (_ & _ & -> & _). done.
  - unfold ret. intros Ho.
    apply (Hopen (Prompt.project_argument os_Args) w1); [done|by left|done].
Qed.
End ProgramMore.

Lemma main_starts_at_most_one_witness :
  Prompt.main sample_MustCompile sample_Encode sample_Decode strconv.Atoi
      Prompt.sample_Quote (Prompt.sample_console "0") ["uvs"] false false w_rebuilt =
    (Ret tt,
     add_started exe56 ["-projectPath"; "C:/proj"]
       (logged ["0 : C:/proj"; "1 : D:/game"; "2 : D:/demo"; String LF "> "]
          w_rebuilt)) ∧
  ∃ config w1 w2 project version exe,
    startup sample_MustCompile sample_Encode sample_Decode false w_rebuilt =
      (Ret config, w1) ∧
    Prompt.askProject strconv.Atoi Prompt.sample_Quote (Prompt.sample_console "0") w1 =
      (Ret project, w2) ∧
    getProjectVersion project w2 = (Ret version, w2) ∧
    Versions config !! version = Some exe ∧
    add_started exe56 ["-projectPath"; "C:/proj"]
      (logged ["0 : C:/proj"; "1 : D:/game"; "2 : D:/demo"; String LF "> "]
         w_rebuilt) =
      add_started exe ["-projectPath"; project] w2.
Proof.
  assert (Prompt.main sample_MustCompile sample_Encode sample_Decode strconv.Atoi
            Prompt.sample_Quote (Prompt.sample_console "0") ["uvs"] false false
            w_rebuilt =
            (Ret tt,
             add_started exe56 ["-projectPath"; "C:/proj"]
               (logged ["0 : C:/proj"; "1 : D:/game"; "2 : D:/demo"; String LF "> "]
                  w_rebuilt)))
    as Hm by (vm_compute; reflexivity).
  split; [exact Hm|].
  destruct (main_starts_at_most_one sample_MustCompile sample_Encode sample_Decode
              strconv.Atoi Prompt.sample_Quote _ _ _ _ _ _ _ Hm)
    as [Hnone|(config & w1 & w2 & project & version & exe & Hs & _ & _ &
               [(Harg & _)|(_ & Ha)] & Hv & Hl & Hw & _)].
  - vm_compute in Hnone. discriminate Hnone.
  - by destruct Harg.
  - exists config, w1, w2, project, version, exe.
    split; [exact Hs|]. split; [exact Ha|]. split; [exact Hv|].
    split; [exact Hl|exact Hw].
Defined.
